(** * paper_finder: a shallow embedding of [paper_finder.py]

    The script polls arXiv for every configured keyword group, mails a digest
    of the papers it has not mailed before and records their identifiers in a
    JSON state file.  This development embeds the script's functions
    ([load_state], [save_state], [search_new_papers], [send_email], the module
    level configuration and the body of the polling loop) and proves the
    properties of the dedup-and-notify cycle.

    Conventions of the embedding:
    - a Python [str] is a [string] holding its UTF-8 bytes; byte-wise
      lexicographic order on UTF-8 is code point order, which is the order
      [sorted] uses on [str];
    - a Python [dict] is an association list in insertion order with
      [dict_get]/[dict_set]; a Python [set] of [str] is a [gset string];
    - a [datetime] (UTC) and a [timedelta] are integers counting microseconds;
    - the collaborators outside the script (clock, arXiv client, e-mail
      library, SMTP transport) are the operations of the class [Platform];
    - effects are threaded through one record, [machine], by the monad [M];
      every call of one of the script's functions is recorded in [calls]. *)

From stdpp Require Import base option list sorting gmap strings pretty.
From Stdlib Require Import ZArith Ascii String.

Local Open Scope Z_scope.
Set Warnings "-clear-no-such-hyp".

(** ** Python strings *)

Module Str.

(** The characters used as separators and delimiters. *)
Definition slash : ascii := "/"%char.
Definition dquote : ascii := "034"%char.

(** [s.split(sep)] for a one-character separator: never returns the empty
    list, and returns [n + 1] fields when [sep] occurs [n] times. *)
Fixpoint split (sep : ascii) (s : string) : list string :=
  match s with
  | EmptyString => [EmptyString]
  | String c s' =>
      if decide (c = sep) then EmptyString :: split sep s'
      else match split sep s' with
           | [] => [String c EmptyString]
           | field :: fields => String c field :: fields
           end
  end.

(** [sep.join(fields)]. *)
Definition join (sep : string) (fields : list string) : string :=
  String.concat sep fields.

(** [c in s]. *)
Fixpoint mem (c : ascii) (s : string) : bool :=
  match s with
  | EmptyString => false
  | String c' s' => bool_decide (c = c') || mem c s'
  end.

(** [str(n)] for a length. *)
Definition of_nat (n : nat) : string := pretty n.

End Str.

(** ** Python dictionaries: association lists in insertion order *)

Section pydict.
Context {V : Type}.

Definition pydict : Type := list (string * V).

(** [d.get(k)], [None] when the key is absent. *)
Fixpoint dict_get (k : string) (d : pydict) : option V :=
  match d with
  | [] => None
  | (k', v) :: d' => if decide (k = k') then Some v else dict_get k d'
  end.

(** [d[k] = v]: an existing key keeps its position, a new key goes last. *)
Fixpoint dict_set (k : string) (v : V) (d : pydict) : pydict :=
  match d with
  | [] => [(k, v)]
  | (k', v') :: d' =>
      if decide (k = k') then (k, v) :: d' else (k', v') :: dict_set k v d'
  end.

Definition dict_keys (d : pydict) : list string := d.*1.

(** The keys of a dictionary are pairwise distinct. *)
Definition dict_wf (d : pydict) : Prop := NoDup (dict_keys d).

End pydict.

Arguments pydict : clear implicits.

(** [{k: f(v) for k, v in items}]: the pairs are inserted from left to
    right, so a repeated key keeps its first position and its last value. *)
Definition dict_comprehension {A B} (f : A → B) (items : list (string * A))
  : pydict B :=
  foldl (λ d kv, dict_set kv.1 (f kv.2) d) [] items.

(** ** Seen sets *)

(** [set(seen_list)] *)
Definition py_set (seen_list : list string) : gset string :=
  list_to_set seen_list.

(** [sorted(list(seen_set))]: ascending in the order of [str]. *)
Definition py_sorted (seen_set : gset string) : list string :=
  merge_sort String.le (elements seen_set).

(** The in-memory state [{group_id: set_of_seen_ids}]. *)
Abbreviation seen_state := (pydict (gset string)).

(** [current_state.get(group_id, set())] *)
Definition seen_of (state : seen_state) (group_id : string) : gset string :=
  default ∅ (dict_get group_id state).

(** ** Exceptions and results *)

(** The exceptions the model distinguishes: [ValueError] is what [int]
    raises on a malformed literal; [LibraryError what] stands for any other
    exception raised by a library call. *)
Inductive exn : Type :=
| ValueError
| LibraryError (what : string).

Inductive result (A : Type) : Type :=
| Ok (a : A)
| Raise (e : exn).

Arguments Ok {A} a.
Arguments Raise {A} e.

(** ** The builtin [int] on text *)

Module PyInt.

(** ASCII white space as [str.strip] sees it. *)
Definition is_space (c : ascii) : bool :=
  let n := nat_of_ascii c in
  ((9 <=? n)%nat && (n <=? 13)%nat) || ((28 <=? n)%nat && (n <=? 32)%nat).

Definition digit_of (c : ascii) : option Z :=
  let n := nat_of_ascii c in
  if ((48 <=? n)%nat && (n <=? 57)%nat) then Some (Z.of_nat n - 48) else None.

Fixpoint lstrip (s : string) : string :=
  match s with
  | EmptyString => EmptyString
  | String c s' => if is_space c then lstrip s' else s
  end.

Definition strip (s : string) : string :=
  String.rev (lstrip (String.rev (lstrip s))).

(** Decimal digits, single underscores allowed between two digits.
    [after_digit] tells whether the previous character was a digit. *)
Fixpoint digits (acc : Z) (after_digit : bool) (s : string) : option Z :=
  match s with
  | EmptyString => if after_digit then Some acc else None
  | String c s' =>
      match digit_of c with
      | Some d => digits (10 * acc + d) true s'
      | None =>
          if bool_decide (c = "_"%char) && after_digit
          then digits acc false s'
          else None
      end
  end.

(** ASCII white space as [int] skips it: the characters 9 to 13 and the
    space, without the separators 28 to 31 that [str.strip] also removes. *)
Definition is_c_space (c : ascii) : bool :=
  let n := nat_of_ascii c in
  ((9 <=? n)%nat && (n <=? 13)%nat) || (n =? 32)%nat.

Fixpoint lskip (s : string) : string :=
  match s with
  | EmptyString => EmptyString
  | String c s' => if is_c_space c then lskip s' else s
  end.

Definition skip (s : string) : string :=
  String.rev (lskip (String.rev (lskip s))).

(** The number of digit characters of a literal. *)
Fixpoint count_digits (s : string) : Z :=
  match s with
  | EmptyString => 0
  | String c s' =>
      (if digit_of c is Some _ then 1 else 0) + count_digits s'
  end.

(** The default of [sys.get_int_max_str_digits()]. *)
Definition max_str_digits : Z := 4300.

(** [int(s)] for an ASCII [s]: surrounding white space, an optional sign,
    then the digits, no more than [max_str_digits] of them; anything else
    raises [ValueError]. *)
Definition int (s : string) : result Z :=
  let body := skip s in
  let literal :=
    match body with
    | String "+" rest => digits 0 false rest
    | String "-" rest => Z.opp <$> digits 0 false rest
    | _ => digits 0 false body
    end in
  match literal with
  | Some n =>
      if count_digits body <=? max_str_digits then Ok n else Raise ValueError
  | None => Raise ValueError
  end.

End PyInt.

(** ** Data *)

Module arxiv.

(** The fields of [arxiv.Result] the script reads. *)
Record Result : Type := {
  entry_id : string;
  title : string;
  authors : list string;
  published : Z;
  updated : Z;
  summary : string;
}.

(** What iterating [search.results()] does: it yields a result and goes on,
    is exhausted, or raises (transport or feed parsing failure). *)
Inductive results : Type :=
| Exhausted
| Raises
| Yield (result : Result) (rest : results).

(** The results yielded before the iteration ends or raises. *)
Fixpoint yielded (rs : results) : list Result :=
  match rs with
  | Exhausted | Raises => []
  | Yield r rest => r :: yielded rest
  end.

(** Whether the iteration ends by raising. *)
Fixpoint raises (rs : results) : bool :=
  match rs with
  | Exhausted => false
  | Raises => true
  | Yield _ rest => raises rest
  end.

End arxiv.

(** One entry of [KEYWORD_GROUPS]. *)
Record group_info : Type := {
  name : string;
  keywords : list string;
  keywords_string : string;
}.

(** The module-level mail settings. [os.getenv] without default gives
    [None] for an unset variable. *)
Record mail_settings : Type := {
  SMTP_SERVER : string;
  SMTP_PORT : Z;
  SENDER_EMAIL : option string;
  SENDER_PASSWORD : option string;
  RECEIVER_EMAIL : option string;
}.

Definition STATE_FILE : string := "paper_finder_state.json".
Definition CHECK_INTERVAL_HOURS : Z := 24.

(** [timedelta(days=d, hours=h)] in microseconds. *)
Definition timedelta (days hours : Z) : Z :=
  (days * 24 + hours) * 3600 * 1000000.

(** What the state file holds, as [load_state] can observe it. *)
Inductive file_content : Type :=
| NotJson
    (* [json.load] raises [json.JSONDecodeError] *)
| Unloadable
    (* [open], [json.load], [.items()] or [set(...)] raises another
       exception: unreadable file, JSON of another shape *)
| Document (data : pydict (list string)).
    (* a JSON object whose values are arrays of strings, the format
       [save_state] writes; documents that load without error but hold
       other values (a string, an array of numbers) are not represented *)

(** An e-mail as handed to the transport. *)
Record message : Type := {
  Subject : string;
  From : string;
  To : string;
  content : string;
}.

Inductive smtp_outcome : Type :=
| Delivered
| SMTPAuthenticationError
| SMTPFailure.

(** The calls of the script's functions, in the order they are made. *)
Inductive call : Type :=
| CallLoadState (filepath : string)
| CallSearch (keywords : list string) (seen_ids : gset string)
    (search_timedelta : Z)
| CallSendEmail (subject body : string)
| CallSaveState (filepath : string) (state : seen_state).

(** ** The collaborators outside the script *)

(** [World] is the state of everything outside the process memory and the
    state file; each operation may change it. *)
Class Platform (World : Type) : Type := {
  (** [datetime.now(timezone.utc)] *)
  datetime_now : World → Z * World;
  (** iterating [arxiv.Search(query, max_results, SubmittedDate,
      Descending).results()] *)
  arxiv_Search_results : string → nat → World → arxiv.results * World;
  (** [d.strftime('%Y-%m-%d %H:%M:%S %Z')] *)
  datetime_strftime : Z → string;
  (** [time.strftime('%Y-%m-%d')] *)
  time_strftime : World → string * World;
  (** whether assembling the [EmailMessage] (headers and content) raises *)
  EmailMessage_raises : message → option exn;
  (** one SMTP session: connect ([SMTP_SSL] when the flag is set, else
      [SMTP] followed by [starttls]), log in, send *)
  smtp_session :
    bool → string → Z → string → string → message → World →
    smtp_outcome * World;
  (** [time.sleep(seconds)] *)
  time_sleep : Z → World → World;
}.

(** ** Machine state and the monad of the script *)

Record machine (World : Type) : Type := {
  world : World;
  disk : gmap string file_content;
  (** whether writing a file goes through; when it does not, the failure
      represented is that of [open(filepath, 'w')], which leaves the file
      as it is (a failure after the file has been opened and truncated is
      not represented) *)
  disk_writable : bool;
  calls : list call;
}.

Arguments world {World} m.
Arguments disk {World} m.
Arguments disk_writable {World} m.
Arguments calls {World} m.

Definition M (World : Type) (A : Type) : Type :=
  machine World → result A * machine World.

Section monad.
Context {World : Type}.

#[export] Instance M_ret : MRet (M World) := λ A a m, (Ok a, m).

#[export] Instance M_bind : MBind (M World) := λ A B k c m,
  match c m with
  | (Ok a, m') => k a m'
  | (Raise e, m') => (Raise e, m')
  end.

Definition raise {A} (e : exn) : M World A := λ m, (Raise e, m).

(** [try: c except Exception: handler] *)
Definition try_except {A} (c : M World A) (handler : exn → M World A)
  : M World A := λ m,
  match c m with
  | (Ok a, m') => (Ok a, m')
  | (Raise e, m') => handler e m'
  end.

(** Updates of one component of the machine. *)
Definition add_call (c : call) (m : machine World) : machine World :=
  {| world := world m; disk := disk m; disk_writable := disk_writable m;
     calls := calls m ++ [c] |}.

Definition set_world (w : World) (m : machine World) : machine World :=
  {| world := w; disk := disk m; disk_writable := disk_writable m;
     calls := calls m |}.

Definition set_file (filepath : string) (c : file_content)
    (m : machine World) : machine World :=
  {| world := world m; disk := <[filepath := c]> (disk m);
     disk_writable := disk_writable m; calls := calls m |}.

(** Record a call. *)
Definition trace (c : call) : M World () := λ m, (Ok (), add_call c m).

(** Run an operation of the platform on the world. *)
Definition platform {A} (op : World → A * World) : M World A := λ m,
  let '(a, w) := op (world m) in (Ok a, set_world w m).

Definition read_file (filepath : string) : M World (option file_content) :=
  λ m, (Ok (disk m !! filepath), m).

(** [with open(filepath, 'w') as f: json.dump(data, f)]; gives [false]
    when the file cannot be opened for writing, and then leaves it as it
    is. *)
Definition write_file (filepath : string) (data : pydict (list string))
  : M World bool := λ m,
  if disk_writable m
  then (Ok true, set_file filepath (Document data) m)
  else (Ok false, m).

(** The calls made between two machine states. *)
Definition new_calls (m m' : machine World) : list call :=
  drop (List.length (calls m)) (calls m').

End monad.

(** ** The functions of the script *)

Section script.
Context {World : Type} `{!Platform World}.

Abbreviation M := (M World).

(** [load_state(filepath)]: the state and whether the file existed and was
    valid.  Both [except] clauses return the same pair. *)
Definition load_state (filepath : string) : M (seen_state * bool) :=
  trace (CallLoadState filepath);;
  file ← read_file filepath;
  match file with
  | None => mret ([], false)
  | Some (Document data) => mret (dict_comprehension py_set data, true)
  | Some NotJson => mret ([], false)
  | Some Unloadable => mret ([], false)
  end.

(** [save_state(filepath, state)]; a failure to write is logged and
    swallowed. *)
Definition save_state (filepath : string) (state : seen_state) : M () :=
  trace (CallSaveState filepath state);;
  let serializable_state := prod_map id py_sorted <$> state in
  _ ← write_file filepath serializable_state;
  mret ().

(** [result.entry_id.split('/')[-1]] *)
Definition paper_id_of (entry_id : string) : string :=
  default "" (last (Str.split Str.slash entry_id)).

(** [" AND ".join([f'all:"{k}"' for k in keywords])] *)
Definition build_query (keywords : list string) : string :=
  Str.join " AND "
    ((λ k, "all:" +:+ String Str.dquote k +:+ String Str.dquote "")
       <$> keywords).

(** The test of the [if] in the loop of [search_new_papers]. *)
Definition is_new (cutoff_date : Z) (seen_ids : gset string)
    (result : arxiv.Result) : bool :=
  let paper_id := paper_id_of (arxiv.entry_id result) in
  let publish_time := arxiv.published result in
  let update_time := arxiv.updated result in
  ((cutoff_date <=? publish_time) || (cutoff_date <=? update_time))
  && bool_decide (paper_id ∉ seen_ids).

(** The [for result in search.results()] loop inside the [try]: when the
    iteration raises, the [except] clause logs the error and control falls
    through to [return new_papers]. *)
Fixpoint scan_results (cutoff_date : Z) (seen_ids : gset string)
    (results : arxiv.results) (new_papers : list arxiv.Result)
  : list arxiv.Result :=
  match results with
  | arxiv.Exhausted => new_papers
  | arxiv.Raises => new_papers
  | arxiv.Yield result rest =>
      if is_new cutoff_date seen_ids result
      then scan_results cutoff_date seen_ids rest (new_papers ++ [result])
      else scan_results cutoff_date seen_ids rest new_papers
  end.

(** [search_new_papers(keywords, seen_ids, search_timedelta)] *)
Definition search_new_papers (keywords : list string)
    (seen_ids : gset string) (search_timedelta : Z)
  : M (list arxiv.Result) :=
  trace (CallSearch keywords seen_ids search_timedelta);;
  let new_papers := [] in
  let query := build_query keywords in
  now ← platform datetime_now;
  let cutoff_date := now - search_timedelta in
  results ← platform (arxiv_Search_results query 100);
  mret (scan_results cutoff_date seen_ids results new_papers).

(** Truth value of an optional text: [None] and [""] are false. *)
Definition truthy (s : option string) : bool :=
  match s with
  | None => false
  | Some s => negb (bool_decide (s = ""))
  end.

(** [send_email(subject, body, sender, password, receiver, server, port)] *)
Definition send_email (subject body : string)
    (sender password receiver : option string) (server : string) (port : Z)
  : M bool :=
  trace (CallSendEmail subject body);;
  if negb (forallb id [truthy sender; truthy password; truthy receiver;
                       truthy (Some server); negb (port =? 0)])
  then mret false
  else
    let msg := {| Subject := subject; From := default "" sender;
                  To := default "" receiver; content := body |} in
    match EmailMessage_raises msg with
    | Some e => raise e
    | None =>
        outcome ← platform (smtp_session (port =? 465) server port
                              (default "" sender) (default "" password) msg);
        match outcome with
        | Delivered => mret true
        | SMTPAuthenticationError => mret false
        | SMTPFailure => mret false
        end
    end.

(** *** The polling loop *)

Definition nl : string := String "010"%char "".

(** The subject line of a digest. *)
Definition digest_subject (group_name_display : string)
    (new_papers : list arxiv.Result) (today : string) : string :=
  "New arXiv Papers: " +:+ group_name_display +:+ " ("
  +:+ Str.of_nat (List.length new_papers) +:+ ") - " +:+ today.

(** What the [for paper in new_papers] loop appends to [body] for one
    paper. *)
Definition digest_entry (paper : arxiv.Result) : string :=
  "Title: " +:+ arxiv.title paper +:+ nl
  +:+ "Authors: " +:+ Str.join ", " (arxiv.authors paper) +:+ nl
  +:+ "Published: " +:+ datetime_strftime (arxiv.published paper) +:+ nl
  +:+ "Updated: " +:+ datetime_strftime (arxiv.updated paper) +:+ nl
  +:+ "Link: " +:+ arxiv.entry_id paper +:+ nl
  +:+ "Abstract: " +:+ arxiv.summary paper +:+ nl +:+ nl +:+ "---"
  +:+ nl +:+ nl.

Definition digest_body (group_name_display keywords_string_display : string)
    (new_papers : list arxiv.Result) : string :=
  foldl (λ body paper, body +:+ digest_entry paper)
    ("Found " +:+ Str.of_nat (List.length new_papers)
     +:+ " new paper(s) for keyword group '" +:+ group_name_display
     +:+ "' (" +:+ keywords_string_display +:+ "):" +:+ nl +:+ nl +:+ "---"
     +:+ nl +:+ nl)
    new_papers.

(** The set [newly_found_ids] built by the same loop. *)
Definition newly_found_ids (new_papers : list arxiv.Result) : gset string :=
  foldl (λ ids paper, ids ∪ {[ paper_id_of (arxiv.entry_id paper) ]})
    ∅ new_papers.

(** The search window of a cycle. *)
Definition search_window (state_file_existed : bool) : Z :=
  if negb state_file_existed
  then timedelta 7 0
  else timedelta 0 CHECK_INTERVAL_HOURS.

(** The body of [for group_id, group_info in KEYWORD_GROUPS.items()].
    The loop carries [current_state] and [state_changed]. *)
Definition process_group (mail : mail_settings) (state_file_existed : bool)
    (carried : seen_state * bool) (item : string * group_info)
  : M (seen_state * bool) :=
  let '(current_state, state_changed) := carried in
  let '(group_id, info) := item in
  let group_name_display := name info in
  let keywords_string_display := keywords_string info in
  let group_seen_ids := seen_of current_state group_id in
  let window := search_window state_file_existed in
  new_papers ← search_new_papers (keywords info) group_seen_ids window;
  match new_papers return M (seen_state * bool) with
  | [] => mret (current_state, state_changed)
  | _ :: _ =>
      today ← platform time_strftime;
      let subject := digest_subject group_name_display new_papers today in
      let body :=
        digest_body group_name_display keywords_string_display new_papers in
      email_sent ← send_email subject body (SENDER_EMAIL mail)
                     (SENDER_PASSWORD mail) (RECEIVER_EMAIL mail)
                     (SMTP_SERVER mail) (SMTP_PORT mail);
      if (email_sent : bool)
      then mret (dict_set group_id
                   (group_seen_ids ∪ newly_found_ids new_papers)
                   current_state,
                 true)
      else mret (current_state, state_changed)
  end.

Fixpoint for_each_group (mail : mail_settings) (state_file_existed : bool)
    (groups : list (string * group_info)) (carried : seen_state * bool)
  : M (seen_state * bool) :=
  match groups with
  | [] => mret carried
  | item :: rest =>
      carried' ← process_group mail state_file_existed carried item;
      for_each_group mail state_file_existed rest carried'
  end.

(** The body of the [try] of one iteration of [while True]. *)
Definition check_cycle (mail : mail_settings)
    (KEYWORD_GROUPS : pydict group_info) : M () :=
  let state_changed := false in
  match KEYWORD_GROUPS with
  | [] => mret ()
  | _ :: _ =>
      loaded ← load_state STATE_FILE;
      let '(current_state, state_file_existed) :=
        (loaded : seen_state * bool) in
      carried ← for_each_group mail state_file_existed KEYWORD_GROUPS
                  (current_state, state_changed);
      let '(current_state, state_changed) := (carried : seen_state * bool) in
      if state_changed
      then save_state STATE_FILE current_state
      else mret ()
  end.

(** One iteration of [while True]: the cycle under [except Exception],
    then the sleep. *)
Definition main_iteration (mail : mail_settings)
    (KEYWORD_GROUPS : pydict group_info) : M () :=
  try_except (check_cycle mail KEYWORD_GROUPS) (λ _, mret ());;
  let wait_seconds := CHECK_INTERVAL_HOURS * 60 * 60 in
  platform (λ w, ((), time_sleep wait_seconds w)).

(** The first [n] iterations of the loop, which never ends by itself. *)
Fixpoint main_loop (n : nat) (mail : mail_settings)
    (KEYWORD_GROUPS : pydict group_info) : M () :=
  match n with
  | O => mret ()
  | S n' =>
      main_iteration mail KEYWORD_GROUPS;;
      main_loop n' mail KEYWORD_GROUPS
  end.

End script.

(** ** Module-level configuration *)

(** [os.getenv(key)] on the environment after [load_dotenv()]. *)
Definition os_getenv (environ : pydict string) (key : string)
  : option string :=
  dict_get key environ.

(** The mail settings read when the module is loaded.  [SMTP_PORT] goes
    through [int] outside any [try]: its exception ends the process. *)
Definition module_configuration (environ : pydict string)
  : result mail_settings :=
  let server := default "smtp.gmail.com" (os_getenv environ "SMTP_SERVER") in
  let port :=
    match os_getenv environ "SMTP_PORT" with
    | None => Ok 587
    | Some text => PyInt.int text
    end in
  match port with
  | Raise e => Raise e
  | Ok port =>
      Ok {| SMTP_SERVER := server;
            SMTP_PORT := port;
            SENDER_EMAIL := os_getenv environ "SENDER_EMAIL";
            SENDER_PASSWORD := os_getenv environ "SENDER_PASSWORD";
            RECEIVER_EMAIL := os_getenv environ "RECEIVER_EMAIL" |}
  end.

(** ** Observations on a run *)

Definition is_send_email (c : call) : bool :=
  match c with CallSendEmail _ _ => true | _ => false end.

Definition is_save_state (c : call) : bool :=
  match c with CallSaveState _ _ => true | _ => false end.

(** The windows passed to [search_new_papers], in call order. *)
Definition search_windows (cs : list call) : list Z :=
  omap (λ c, match c with CallSearch _ _ td => Some td | _ => None end) cs.

(** A list of strings is strictly ascending: sorted and free of
    duplicates, as [save_state] writes every array. *)
Definition canonical (ids : list string) : Prop :=
  StronglySorted (strict String.le) ids.

(** The calls the group loop may make in a cycle whose load reported
    [state_file_existed]: searches over the window of the cycle, and
    notifications. *)
Definition group_call (state_file_existed : bool) (c : call) : Prop :=
  match c with
  | CallSearch _ _ td => td = search_window state_file_existed
  | CallSendEmail _ _ => True
  | CallLoadState _ | CallSaveState _ _ => False
  end.

(** Some group holds an identifier in [state'] that it did not hold in
    [state]. *)
Definition state_grew (state state' : seen_state) : Prop :=
  ∃ group_id id,
    id ∈ seen_of state' group_id ∧ id ∉ seen_of state group_id.

Section observations.
Context {World : Type} `{!Platform World}.

(** In the cycle that starts in [m] with state [state], the search of every
    group of [groups] returns no candidate. *)
Fixpoint no_news (state_file_existed : bool)
    (groups : list (string * group_info)) (state : seen_state)
    (m : machine World) : Prop :=
  match groups with
  | [] => True
  | (group_id, info) :: rest =>
      let '(found, m') :=
        search_new_papers (keywords info) (seen_of state group_id)
          (search_window state_file_existed) m in
      found = Ok [] ∧ no_news state_file_existed rest state m'
  end.

(** The reading of the search contract under which any failure during the
    call gives zero results. *)
Definition failure_gives_no_results : Prop :=
  ∀ keywords seen_ids search_timedelta (m : machine World) now w results w',
    datetime_now (world m) = (now, w) →
    arxiv_Search_results (build_query keywords) 100 w = (results, w') →
    arxiv.raises results = true →
    (search_new_papers keywords seen_ids search_timedelta m).1 = Ok [].

End observations.

(** ** A scripted platform for concrete runs *)

Module Sample.

(** The clock reading, the result streams of the coming searches and the
    outcomes of the coming SMTP sessions. *)
Record scenario : Type := {
  clock : Z;
  feeds : list arxiv.results;
  sessions : list smtp_outcome;
}.

#[global] Instance scripted : Platform scenario := {|
  datetime_now w := (clock w, w);
  arxiv_Search_results _ _ w :=
    (hd arxiv.Exhausted (feeds w),
     {| clock := clock w; feeds := tl (feeds w); sessions := sessions w |});
  datetime_strftime t := pretty t;
  time_strftime w := ("2024-05-01", w);
  EmailMessage_raises _ := None;
  smtp_session _ _ _ _ _ _ w :=
    (hd SMTPFailure (sessions w),
     {| clock := clock w; feeds := feeds w; sessions := tl (sessions w) |});
  time_sleep seconds w :=
    {| clock := clock w + seconds * 1000000; feeds := feeds w;
       sessions := sessions w |};
|}.

Definition boot (w : scenario) (files : gmap string file_content)
  : machine scenario :=
  {| world := w; disk := files; disk_writable := true; calls := [] |}.

Definition noon : Z := 1714564800000000.

Definition paper (link : string) (published_at : Z) : arxiv.Result :=
  {| arxiv.entry_id := link; arxiv.title := "On sampling";
     arxiv.authors := ["A. Author"; "B. Author"];
     arxiv.published := published_at; arxiv.updated := published_at;
     arxiv.summary := "We sample." |}.

Definition paper_v1 : arxiv.Result :=
  paper "http://arxiv.org/abs/2301.12345v1" (noon - timedelta 30 0).

Definition paper_v2 : arxiv.Result :=
  paper "http://arxiv.org/abs/2301.12345v2" (noon - timedelta 0 1).

Definition paper_b : arxiv.Result :=
  paper "http://arxiv.org/abs/2405.00002v1" (noon - timedelta 0 2).

Definition ml : string * group_info :=
  ("group_ml",
   {| name := "KEYWORD_GROUP_ml"; keywords := ["diffusion"; "sampling"];
      keywords_string := "diffusion, sampling" |}).

Definition mail : mail_settings :=
  {| SMTP_SERVER := "smtp.gmail.com"; SMTP_PORT := 587;
     SENDER_EMAIL := Some "me@example.org";
     SENDER_PASSWORD := Some "app-password";
     RECEIVER_EMAIL := Some "you@example.org" |}.

(** A state file written by an earlier cycle. *)
Definition state_file : file_content :=
  Document [("group_ml", ["2301.12345v1"; "2404.00001v1"])].

(** The state that file loads to, and the state after version 2 of the
    first paper has been notified. *)
Definition seen_on_file : seen_state :=
  [("group_ml", {[ "2301.12345v1"; "2404.00001v1" ]})].

Definition seen_afterwards : seen_state :=
  [("group_ml", {[ "2301.12345v1"; "2404.00001v1"; "2301.12345v2" ]})].

(** First run: no state file, one recent paper, the mail goes out. *)
Definition first_run : machine scenario :=
  boot {| clock := noon; feeds := [arxiv.Yield paper_b arxiv.Exhausted];
          sessions := [Delivered] |} ∅.

(** Later run: the state file lists version 1 of a paper whose version 2
    has just appeared; version 1 is still in the feed. *)
Definition later_run : machine scenario :=
  boot {| clock := noon;
          feeds := [arxiv.Yield paper_v2
                      (arxiv.Yield paper_v1 arxiv.Exhausted)];
          sessions := [Delivered] |}
    {[ STATE_FILE := state_file ]}.

(** A run that finds the state file damaged. *)
Definition damaged_run : machine scenario :=
  boot {| clock := noon; feeds := []; sessions := [] |}
    {[ STATE_FILE := NotJson ]}.

(** A run in which arXiv returns nothing. *)
Definition quiet_run : machine scenario :=
  boot {| clock := noon; feeds := []; sessions := [] |}
    {[ STATE_FILE := state_file ]}.

(** A run in which the feed breaks after its first result. *)
Definition interrupted_run : machine scenario :=
  boot {| clock := noon; feeds := [arxiv.Yield paper_b arxiv.Raises];
          sessions := [] |} ∅.

End Sample.

(** ** Keyword groups from the environment *)

(** The loop over [os.environ.items()] that fills [KEYWORD_GROUPS].  Text is
    taken as ASCII: on ASCII text [\w] is a letter, a digit or the
    underscore, [re.IGNORECASE] identifies the two cases of a letter, and
    [str.strip] removes the white space of [PyInt.is_space]. *)
Module Env.

Definition lower (c : ascii) : ascii :=
  let n := nat_of_ascii c in
  if ((65 <=? n)%nat && (n <=? 90)%nat) then ascii_of_nat (n + 32) else c.

(** [\w] *)
Definition is_word (c : ascii) : bool :=
  let n := nat_of_ascii c in
  ((48 <=? n)%nat && (n <=? 57)%nat) || ((65 <=? n)%nat && (n <=? 90)%nat)
  || ((97 <=? n)%nat && (n <=? 122)%nat) || bool_decide (c = "_"%char).

Fixpoint all_chars (test : ascii → bool) (s : string) : bool :=
  match s with
  | EmptyString => true
  | String c s' => test c && all_chars test s'
  end.

(** Match a literal prefix without regard to case; the rest of the key. *)
Fixpoint skip_prefix (prefix key : string) : option string :=
  match prefix with
  | EmptyString => Some key
  | String p prefix' =>
      match key with
      | EmptyString => None
      | String c key' =>
          if bool_decide (lower p = lower c) then skip_prefix prefix' key'
          else None
      end
  end.

(** [re.fullmatch(r"KEYWORD_GROUP_(\w+)", key, re.IGNORECASE)]: the text
    of group 1 when the key matches. *)
Definition fullmatch (key : string) : option string :=
  match skip_prefix "KEYWORD_GROUP_" key with
  | Some suffix =>
      if negb (bool_decide (suffix = "")) && all_chars is_word suffix
      then Some suffix
      else None
  | None => None
  end.

(** [[k.strip() for k in value.split(',') if k.strip()]] *)
Definition keywords_of (value : string) : list string :=
  omap (λ k, let k := PyInt.strip k in
             if bool_decide (k = "") then None else Some k)
    (Str.split ","%char value).

(** The body of the loop for one environment variable. *)
Definition add_group (groups : pydict group_info) (item : string * string)
  : pydict group_info :=
  let '(key, value) := item in
  match fullmatch key with
  | Some suffix =>
      if negb (bool_decide (PyInt.strip value = ""))
      then
        let group_id := "group_" +:+ suffix in
        let keywords := keywords_of value in
        match keywords with
        | [] => groups
        | _ :: _ =>
            dict_set group_id
              {| name := key; keywords := keywords;
                 keywords_string := value |}
              groups
        end
      else groups
  | None => groups
  end.

Definition KEYWORD_GROUPS (environ : pydict string) : pydict group_info :=
  foldl add_group [] environ.

End Env.

(** ** Further observations *)

Definition is_load_state (c : call) : bool :=
  match c with CallLoadState _ => true | _ => false end.

(** Some mail setting is missing, empty or zero: the test that opens
    [send_email] fails. *)
Definition incomplete (mail : mail_settings) : Prop :=
  truthy (SENDER_EMAIL mail) = false ∨ truthy (SENDER_PASSWORD mail) = false
  ∨ truthy (RECEIVER_EMAIL mail) = false ∨ SMTP_SERVER mail = ""
  ∨ SMTP_PORT mail = 0.



Section run_observations.
Context {World : Type} `{!Platform World}.


End run_observations.

(** ** Further concrete scenes *)

Module Scenes.

Definition newline : ascii := "010"%char.

(** The scripted platform with an e-mail library that refuses a sender
    address holding a line feed. *)
Definition strict : Platform Sample.scenario := {|
  datetime_now := @datetime_now _ Sample.scripted;
  arxiv_Search_results := @arxiv_Search_results _ Sample.scripted;
  datetime_strftime := @datetime_strftime _ Sample.scripted;
  time_strftime := @time_strftime _ Sample.scripted;
  EmailMessage_raises msg :=
    if Str.mem newline (From msg) then Some ValueError else None;
  smtp_session := @smtp_session _ Sample.scripted;
  time_sleep := @time_sleep _ Sample.scripted;
|}.

(** Mail settings whose sender spans two lines. *)
Definition broken_sender : mail_settings :=
  {| SMTP_SERVER := "smtp.gmail.com"; SMTP_PORT := 465;
     SENDER_EMAIL := Some (String newline "me@example.org");
     SENDER_PASSWORD := Some "app-password";
     RECEIVER_EMAIL := Some "you@example.org" |}.

(** An environment that sets the port and one keyword group only. *)
Definition bare_environ : pydict string :=
  [("PATH", "/usr/bin"); ("SMTP_PORT", "587");
   ("Keyword_Group_ml", " diffusion , sampling,, ")].

Definition bare_mail : mail_settings :=
  {| SMTP_SERVER := "smtp.gmail.com"; SMTP_PORT := 587;
     SENDER_EMAIL := None; SENDER_PASSWORD := None;
     RECEIVER_EMAIL := None |}.

(** Two cycles on a disk whose state file cannot be opened for writing:
    each cycle finds one paper and its mail is delivered. *)
Definition unwritable_run : machine Sample.scenario :=
  {| world := {| Sample.clock := Sample.noon;
                 Sample.feeds :=
                   [arxiv.Yield Sample.paper_b arxiv.Exhausted;
                    arxiv.Yield Sample.paper_v2 arxiv.Exhausted];
                 Sample.sessions := [Delivered; Delivered] |};
     disk := ∅; disk_writable := false; calls := [] |}.

(** A state that also holds a group of an earlier configuration. *)
Definition seen_with_old_group : seen_state :=
  [("group_old", {[ "1901.00001v3" ]});
   ("group_ml", {[ "2301.12345v1"; "2404.00001v1" ]})].

End Scenes.

(** * Properties *)

(** ** Dictionaries *)

Section pydict_facts.
Context {V : Type}.
Implicit Types (d : pydict V) (k : string) (v : V).

Lemma dict_get_set_eq k v d : dict_get k (dict_set k v d) = Some v.
Proof.
  induction d as [|[k' v'] d IH]; simpl.
  - by rewrite decide_True.
  - destruct (decide (k = k')) as [->|Hne]; simpl.
    + by rewrite decide_True.
    + by rewrite decide_False.
Qed.

Lemma dict_get_set_ne k k' v d :
  k ≠ k' → dict_get k' (dict_set k v d) = dict_get k' d.
Proof.
  intros Hne. induction d as [|[k0 v0] d IH]; simpl.
  - by rewrite decide_False.
  - destruct (decide (k = k0)) as [->|Hk]; simpl.
    + by rewrite !(decide_False (P := k' = k0)).
    + by rewrite IH.
Qed.

Lemma dict_set_fresh k v d :
  k ∉ dict_keys d → dict_set k v d = d ++ [(k, v)].
Proof.
  unfold dict_keys. induction d as [|[k' v'] d IH]; simpl; [done|].
  intros Hk. apply not_elem_of_cons in Hk as [Hne Hk].
  rewrite decide_False by done. by rewrite IH.
Qed.

End pydict_facts.

Lemma dict_comprehension_wf {A B} (f : A → B) (items : list (string * A)) :
  dict_wf items → dict_comprehension f items = prod_map id f <$> items.
Proof.
  unfold dict_comprehension, dict_wf, dict_keys.
  enough (∀ acc : pydict B,
    NoDup (acc.*1 ++ items.*1) →
    foldl (λ d kv, dict_set kv.1 (f kv.2) d) acc items
    = acc ++ (prod_map id f <$> items)) as Hgen.
  { intros Hwf. by rewrite (Hgen []). }
  induction items as [|[k a] items IH]; intros acc Hnd; simpl.
  - by rewrite app_nil_r.
  - simpl in Hnd. rewrite dict_set_fresh.
    + rewrite IH.
      * by rewrite <-app_assoc.
      * rewrite fmap_app. simpl. by rewrite <-app_assoc.
    + apply NoDup_app in Hnd as (_ & Hdisj & _).
      intros Hin. apply (Hdisj k Hin). left.
Qed.

Lemma seen_of_set_eq (state : seen_state) group_id ids :
  seen_of (dict_set group_id ids state) group_id = ids.
Proof. unfold seen_of. by rewrite dict_get_set_eq. Qed.

Lemma seen_of_set_ne (state : seen_state) group_id other ids :
  group_id ≠ other →
  seen_of (dict_set group_id ids state) other = seen_of state other.
Proof. intros. unfold seen_of. by rewrite dict_get_set_ne. Qed.

(** ** Sets and their sorted listing *)

Lemma py_set_sorted (seen_set : gset string) :
  py_set (py_sorted seen_set) = seen_set.
Proof.
  unfold py_set, py_sorted. apply set_eq. intros x.
  rewrite elem_of_list_to_set, merge_sort_Permutation.
  apply elem_of_elements.
Qed.

Lemma canonical_NoDup ids : canonical ids → NoDup ids.
Proof.
  induction 1 as [|x l _ IH Hall]; constructor; [|done].
  intros Hx. rewrite Forall_forall in Hall.
  destruct (Hall x Hx) as [_ Hirr]. by apply Hirr.
Qed.

Lemma canonical_sorted ids : canonical ids → StronglySorted String.le ids.
Proof.
  induction 1 as [|x l _ IH Hall]; constructor; [done|].
  eapply Forall_impl; [done|]. by intros y [? _].
Qed.

Lemma py_sorted_canonical (seen_set : gset string) :
  canonical (py_sorted seen_set).
Proof.
  unfold canonical, py_sorted.
  assert (NoDup (merge_sort String.le (elements seen_set))) as Hnd.
  { rewrite merge_sort_Permutation. apply NoDup_elements. }
  assert (StronglySorted String.le (merge_sort String.le (elements seen_set)))
    as Hs by (apply StronglySorted_merge_sort; apply _).
  induction Hs as [|x l _ IH Hall]; constructor.
  - apply IH. by apply NoDup_cons in Hnd as [_ ?].
  - apply NoDup_cons in Hnd as [Hx _].
    rewrite Forall_forall in Hall |- *. intros y Hy. split; [by apply Hall|].
    intros Hyx. assert (x = y) as -> by (apply (anti_symm String.le); auto).
    done.
Qed.

Lemma py_sorted_set_canonical ids :
  canonical ids → py_sorted (py_set ids) = ids.
Proof.
  intros Hc. unfold py_sorted, py_set.
  apply (StronglySorted_unique String.le).
  - apply StronglySorted_merge_sort; apply _.
  - by apply canonical_sorted.
  - rewrite merge_sort_Permutation.
    by apply elements_list_to_set, canonical_NoDup.
Qed.

(** ** Paper identifiers *)

Lemma split_not_nil sep s : Str.split sep s ≠ [].
Proof.
  destruct s as [|c s]; simpl; [done|].
  destruct (decide (c = sep)); [done|]. by destruct (Str.split sep s).
Qed.

(** The identifier holds no slash, and the link is either the identifier
    alone or some prefix, a slash and the identifier. *)
Lemma paper_id_of_last_segment link :
  Str.mem Str.slash (paper_id_of link) = false ∧
  ((Str.split Str.slash link = [paper_id_of link] ∧ link = paper_id_of link)
   ∨ (∃ front rest fields,
        Str.split Str.slash link = front :: rest :: fields ∧
        ∃ prefix, link = prefix +:+ String Str.slash (paper_id_of link))).
Proof.
  unfold paper_id_of. induction link as [|c s IH]; simpl.
  { split; [done|]. by left. }
  destruct IH as [Hmem IH]. destruct (decide (c = Str.slash)) as [->|Hc].
  - pose proof (split_not_nil Str.slash s) as Hne.
    destruct (Str.split Str.slash s) as [|w ws] eqn:Hs; [done|].
    change (last ("" :: w :: ws)) with (last (w :: ws)).
    split; [done|]. right. exists "", w, ws. split; [done|].
    destruct IH as [[_ Heq]|(?&?&?&_&p&Heq)].
    + exists "". exact (f_equal (String Str.slash) Heq).
    + exists (String Str.slash p). exact (f_equal (String Str.slash) Heq).
  - destruct IH as [[Hs Heq]|(w&w'&ws&Hs&p&Heq)]; rewrite Hs in *.
    + simpl in *. split.
      * rewrite bool_decide_eq_false_2 by done. done.
      * left. split; [done|]. exact (f_equal (String c) Heq).
    + change (last (String c w :: w' :: ws)) with (last (w :: w' :: ws)).
      split; [done|]. right. exists (String c w), w', ws. split; [done|].
      exists (String c p). exact (f_equal (String c) Heq).
Qed.

Section script_facts.
Context {World : Type} `{!Platform World}.
Implicit Types (m : machine World) (state : seen_state).

Lemma newly_found_ids_spec (new_papers : list arxiv.Result) :
  newly_found_ids new_papers
  = list_to_set ((λ p, paper_id_of (arxiv.entry_id p)) <$> new_papers).
Proof.
  unfold newly_found_ids.
  enough (∀ acc : gset string,
    foldl (λ ids paper, ids ∪ {[ paper_id_of (arxiv.entry_id paper) ]})
      acc new_papers
    = acc ∪ list_to_set ((λ p, paper_id_of (arxiv.entry_id p)) <$> new_papers))
    as Hgen.
  { rewrite Hgen. set_solver. }
  induction new_papers as [|p ps IH]; intros acc; simpl.
  - set_solver.
  - rewrite IH. set_solver.
Qed.

Lemma elem_of_newly_found_ids id (new_papers : list arxiv.Result) :
  id ∈ newly_found_ids new_papers ↔
  ∃ p, p ∈ new_papers ∧ id = paper_id_of (arxiv.entry_id p).
Proof.
  rewrite newly_found_ids_spec, elem_of_list_to_set, list_elem_of_fmap.
  naive_solver.
Qed.

(** ** The search *)

Lemma is_new_spec cutoff_date seen_ids (result : arxiv.Result) :
  is_new cutoff_date seen_ids result = true ↔
  (cutoff_date ≤ arxiv.published result ∨ cutoff_date ≤ arxiv.updated result)
  ∧ paper_id_of (arxiv.entry_id result) ∉ seen_ids.
Proof.
  unfold is_new.
  rewrite andb_true_iff, orb_true_iff, !Z.leb_le, bool_decide_eq_true.
  done.
Qed.

Lemma scan_results_spec cutoff_date seen_ids results new_papers :
  scan_results cutoff_date seen_ids results new_papers
  = new_papers
    ++ filter (λ r, is_new cutoff_date seen_ids r) (arxiv.yielded results).
Proof.
  revert new_papers.
  induction results as [| |r rest IH]; intros acc;
    cbn [scan_results arxiv.yielded].
  - by rewrite app_nil_r.
  - by rewrite app_nil_r.
  - destruct (is_new cutoff_date seen_ids r) eqn:Hnew.
    + rewrite filter_cons_True by (rewrite Hnew; done).
      rewrite IH. by rewrite <-app_assoc.
    + rewrite filter_cons_False by (rewrite Hnew; auto). apply IH.
Qed.

Lemma search_new_papers_eq keywords seen_ids search_timedelta m now w
    results w' :
  datetime_now (world m) = (now, w) →
  arxiv_Search_results (build_query keywords) 100 w = (results, w') →
  search_new_papers keywords seen_ids search_timedelta m
  = (Ok (filter (λ r, is_new (now - search_timedelta) seen_ids r)
           (arxiv.yielded results)),
     set_world w'
       (add_call (CallSearch keywords seen_ids search_timedelta) m)).
Proof.
  intros Hnow Hres.
  unfold search_new_papers, mbind, M_bind, trace, platform, mret, M_ret.
  simpl. rewrite Hnow. simpl. rewrite Hres. simpl.
  by rewrite scan_results_spec.
Qed.

(** The search never raises and records exactly its own call. *)
Lemma search_new_papers_total keywords seen_ids search_timedelta m :
  ∃ new_papers m',
    search_new_papers keywords seen_ids search_timedelta m
    = (Ok new_papers, m') ∧
    calls m' = calls m ++ [CallSearch keywords seen_ids search_timedelta] ∧
    disk m' = disk m ∧ disk_writable m' = disk_writable m ∧
    Forall (λ r, paper_id_of (arxiv.entry_id r) ∉ seen_ids) new_papers.
Proof.
  destruct (datetime_now (world m)) as [now w] eqn:Hnow.
  destruct (arxiv_Search_results (build_query keywords) 100 w)
    as [results w'] eqn:Hres.
  eexists _, _. split; [by eapply search_new_papers_eq|].
  repeat split; try done.
  apply Forall_forall. intros r Hr.
  apply list_elem_of_filter in Hr as [Hr _].
  apply Is_true_true in Hr. by apply is_new_spec in Hr as [_ ?].
Qed.

End script_facts.

(** ** The notifier and one step of the group loop *)

Section cycle_facts.
Context {World : Type} `{!Platform World}.
Implicit Types (m : machine World) (state : seen_state).

Lemma bind_ok {A B} (c : M World A) (k : A → M World B) m a m' :
  c m = (Ok a, m') → (c ≫= k) m = k a m'.
Proof. intros Hc. unfold mbind, M_bind. by rewrite Hc. Qed.

Lemma bind_raise {A B} (c : M World A) (k : A → M World B) m e m' :
  c m = (Raise e, m') → (c ≫= k) m = (Raise e, m').
Proof. intros Hc. unfold mbind, M_bind. by rewrite Hc. Qed.

Lemma platform_eq {A} (op : World → A * World) m a w :
  op (world m) = (a, w) → platform op m = (Ok a, set_world w m).
Proof. intros Hop. unfold platform. by rewrite Hop. Qed.

(** [send_email] records exactly its own call and leaves the disk alone,
    whatever it returns or raises. *)
Lemma send_email_calls subject body sender password receiver server port m
    sent m' :
  send_email subject body sender password receiver server port m = (sent, m') →
  calls m' = calls m ++ [CallSendEmail subject body] ∧
  disk m' = disk m ∧ disk_writable m' = disk_writable m.
Proof.
  unfold send_email, mbind, M_bind, trace, platform, mret, M_ret, raise.
  destruct (negb _).
  { intros [= <- <-]. done. }
  destruct (EmailMessage_raises _).
  { intros [= <- <-]. done. }
  simpl. destruct (smtp_session _ _ _ _ _ _ _) as [[] w]; simpl;
    intros [= <- <-]; done.
Qed.

(** With an incomplete configuration [send_email] returns [False] without
    touching the transport. *)
Lemma send_email_incomplete subject body sender password receiver server
    port m :
  truthy sender = false ∨ truthy password = false ∨ truthy receiver = false
  ∨ server = "" ∨ port = 0 →
  send_email subject body sender password receiver server port m
  = (Ok false, add_call (CallSendEmail subject body) m).
Proof.
  intros Hmissing.
  unfold send_email, mbind, M_bind, trace, mret, M_ret. simpl.
  assert (truthy sender && (truthy password && (truthy receiver &&
            (negb (bool_decide (server = "")) && (negb (port =? 0) && true))))
          = false) as ->; [|done].
  destruct Hmissing as [-> | [-> | [-> | [-> | ->]]]]; simpl;
    rewrite ?andb_false_r; done.
Qed.

(** What one step of the loop does, in terms of the search and of the
    notifier it calls. *)
Lemma process_group_spec mail existed state dirty group_id info m :
  ∃ new_papers m1,
    search_new_papers (keywords info) (seen_of state group_id)
      (search_window existed) m = (Ok new_papers, m1) ∧
    match new_papers with
    | [] =>
        process_group mail existed (state, dirty) (group_id, info) m
        = (Ok (state, dirty), m1)
    | _ :: _ =>
        ∃ subject body m1' sent m2,
          calls m1' = calls m1 ∧
          send_email subject body (SENDER_EMAIL mail) (SENDER_PASSWORD mail)
            (RECEIVER_EMAIL mail) (SMTP_SERVER mail) (SMTP_PORT mail) m1'
          = (sent, m2) ∧
          calls m2 = calls m1 ++ [CallSendEmail subject body] ∧
          disk m2 = disk m ∧ disk_writable m2 = disk_writable m ∧
          process_group mail existed (state, dirty) (group_id, info) m
          = (match sent with
             | Ok true =>
                 Ok (dict_set group_id
                       (seen_of state group_id ∪ newly_found_ids new_papers)
                       state, true)
             | Ok false => Ok (state, dirty)
             | Raise e => Raise e
             end, m2)
    end.
Proof.
  destruct (search_new_papers_total (keywords info) (seen_of state group_id)
              (search_window existed) m)
    as (new_papers & m1 & Hsearch & Hcalls & Hdisk & Hwr & _).
  exists new_papers, m1. split; [done|].
  destruct new_papers as [|p ps]; unfold process_group;
    rewrite (bind_ok _ _ _ _ _ Hsearch); [done|].
  destruct (time_strftime (world m1)) as [today w] eqn:Htoday.
  rewrite (bind_ok _ _ _ _ _ (platform_eq _ _ _ _ Htoday)).
  set (subject := digest_subject _ _ _). set (body := digest_body _ _ _).
  exists subject, body, (set_world w m1).
  destruct (send_email subject body (SENDER_EMAIL mail) (SENDER_PASSWORD mail)
              (RECEIVER_EMAIL mail) (SMTP_SERVER mail) (SMTP_PORT mail)
              (set_world w m1))
    as [sent m2] eqn:Hsend.
  exists sent, m2.
  destruct (send_email_calls _ _ _ _ _ _ _ _ _ _ Hsend) as (Hc & Hd & Hw).
  simpl in Hc, Hd, Hw.
  repeat split; try done; try congruence.
  destruct sent as [[]|e].
  - by rewrite (bind_ok _ _ _ _ _ Hsend).
  - by rewrite (bind_ok _ _ _ _ _ Hsend).
  - by rewrite (bind_raise _ _ _ _ _ Hsend).
Qed.

(** One step of the loop: the calls it makes, what it leaves alone, and how
    the carried state moves. *)
Lemma process_group_run mail existed state dirty group_id info m r m' :
  process_group mail existed (state, dirty) (group_id, info) m = (r, m') →
  ∃ cs,
    calls m' = calls m ++ cs ∧ Forall (group_call existed) cs ∧
    List.length (search_windows cs) = 1%nat ∧
    disk m' = disk m ∧ disk_writable m' = disk_writable m ∧
    match r with
    | Ok (state', dirty') =>
        (∀ g, seen_of state g ⊆ seen_of state' g) ∧
        (dirty' = true → dirty = true ∨ state_grew state state') ∧
        (dirty' = false → state' = state ∧ dirty = false)
    | Raise _ => True
    end.
Proof.
  intros Hrun.
  destruct (process_group_spec mail existed state dirty group_id info m)
    as (new_papers & m1 & Hsearch & Hstep).
  destruct (search_new_papers_total (keywords info) (seen_of state group_id)
              (search_window existed) m)
    as (new_papers' & m1' & Hsearch' & Hcalls & Hdisk & Hwr & Hunseen).
  rewrite Hsearch in Hsearch'. injection Hsearch' as <- <-.
  destruct new_papers as [|p ps].
  - rewrite Hstep in Hrun. injection Hrun as <- <-.
    eexists. split; [done|]. repeat split; try done.
    + by repeat constructor.
    + by intros ->; left.
  - destruct Hstep as (subject & body & m0 & sent & m2 & _ & _ & Hc2 & Hd2
                       & Hw2 & Hstep).
    rewrite Hstep in Hrun. injection Hrun as <- <-.
    exists [CallSearch (keywords info) (seen_of state group_id)
              (search_window existed); CallSendEmail subject body].
    split; [by rewrite Hc2, Hcalls, <-app_assoc|].
    split; [by repeat constructor|]. repeat split; try done.
    destruct sent as [[]|e]; [|repeat split; try done; by left|done].
    split; [|split; [|done]].
    + intros g. destruct (decide (group_id = g)) as [<-|Hne].
      * rewrite seen_of_set_eq. set_solver.
      * by rewrite seen_of_set_ne.
    + intros _. right. exists group_id, (paper_id_of (arxiv.entry_id p)).
      rewrite seen_of_set_eq. split.
      * apply elem_of_union_r, elem_of_newly_found_ids. exists p.
        split; [left|done].
      * by apply Forall_cons in Hunseen as [? _].
Qed.

(** The whole loop over the groups. *)
Lemma for_each_group_run mail existed groups state dirty m r m' :
  for_each_group mail existed groups (state, dirty) m = (r, m') →
  ∃ cs,
    calls m' = calls m ++ cs ∧ Forall (group_call existed) cs ∧
    disk m' = disk m ∧ disk_writable m' = disk_writable m ∧
    match r with
    | Ok (state', dirty') =>
        List.length (search_windows cs) = List.length groups ∧
        (∀ g, seen_of state g ⊆ seen_of state' g) ∧
        (dirty' = true → dirty = true ∨ state_grew state state') ∧
        (dirty' = false → state' = state ∧ dirty = false)
    | Raise _ => True
    end.
Proof.
  revert state dirty m.
  induction groups as [|[group_id info] rest IH]; intros state dirty m;
    cbn [for_each_group].
  - intros [= <- <-]. exists []. rewrite app_nil_r.
    repeat split; try done. by left.
  - destruct (process_group mail existed (state, dirty) (group_id, info) m)
      as [r1 m1] eqn:Hstep.
    destruct (process_group_run _ _ _ _ _ _ _ _ _ Hstep)
      as (cs1 & Hc1 & Hg1 & Hl1 & Hd1 & Hw1 & Hr1).
    destruct r1 as [[state1 dirty1]|e].
    + rewrite (bind_ok _ _ _ _ _ Hstep). intros Hrest.
      destruct (IH _ _ _ Hrest) as (cs2 & Hc2 & Hg2 & Hd2 & Hw2 & Hr2).
      exists (cs1 ++ cs2).
      split; [by rewrite Hc2, Hc1, <-app_assoc|].
      split; [by apply Forall_app|].
      split; [congruence|]. split; [congruence|].
      destruct r as [[state' dirty']|]; [|done].
      destruct Hr1 as (Hmono1 & Hdirty1 & Hclean1).
      destruct Hr2 as (Hlen2 & Hmono2 & Hdirty2 & Hclean2).
      split; [|split; [|split]].
      * unfold search_windows in *. rewrite omap_app, length_app.
        simpl. lia.
      * intros g. etrans; [apply Hmono1|apply Hmono2].
      * intros Hd. destruct (Hdirty2 Hd) as [->|(g & id & Hin & Hout)].
        -- destruct (Hdirty1 eq_refl) as [->|(g & id & Hin & Hout)];
             [by left|].
           right. exists g, id. split; [|done]. by apply Hmono2.
        -- right. exists g, id. split; [done|].
           intros Hold. by apply Hout, Hmono1.
      * intros Hd. destruct (Hclean2 Hd) as [-> ->]. by apply Hclean1.
    + rewrite (bind_raise _ _ _ _ _ Hstep). intros [= <- <-].
      exists cs1. done.
Qed.

End cycle_facts.

(** ** The state store and the whole cycle *)

Section store_facts.
Context {World : Type} `{!Platform World}.
Implicit Types (m : machine World) (state : seen_state).

Lemma new_calls_app m m' cs : calls m' = calls m ++ cs → new_calls m m' = cs.
Proof. unfold new_calls. intros ->. by rewrite drop_app_length. Qed.

Lemma load_state_eq filepath m :
  load_state filepath m
  = (Ok match disk m !! filepath with
        | Some (Document data) => (dict_comprehension py_set data, true)
        | _ => ([], false)
        end,
     add_call (CallLoadState filepath) m).
Proof.
  unfold load_state, mbind, M_bind, trace, read_file, mret, M_ret. simpl.
  by destruct (disk m !! filepath) as [[]|].
Qed.

Lemma save_state_eq filepath state m :
  save_state filepath state m
  = (Ok (),
     let m1 := add_call (CallSaveState filepath state) m in
     if disk_writable m
     then set_file filepath (Document (prod_map id py_sorted <$> state)) m1
     else m1).
Proof.
  unfold save_state, mbind, M_bind, trace, write_file, mret, M_ret. simpl.
  by destruct (disk_writable m).
Qed.

(** A cycle either skips everything (no group configured), or loads the
    state, runs the group loop and saves when the loop reports a change. *)
Lemma check_cycle_run mail groups m r m' :
  check_cycle mail groups m = (r, m') →
  (groups = [] ∧ r = Ok () ∧ m' = m) ∨
  ∃ state existed m0 r1 m1 cs tail,
    groups ≠ [] ∧
    load_state STATE_FILE m = (Ok (state, existed), m0) ∧
    for_each_group mail existed groups (state, false) m0 = (r1, m1) ∧
    Forall (group_call existed) cs ∧
    new_calls m m' = CallLoadState STATE_FILE :: cs ++ tail ∧
    match r1 with
    | Ok (state', true) =>
        r = Ok () ∧ save_state STATE_FILE state' m1 = (Ok (), m') ∧
        tail = [CallSaveState STATE_FILE state'] ∧
        state_grew state state' ∧
        List.length (search_windows cs) = List.length groups
    | Ok (state', false) =>
        r = Ok () ∧ m' = m1 ∧ tail = [] ∧ state' = state ∧
        List.length (search_windows cs) = List.length groups
    | Raise e => r = Raise e ∧ m' = m1 ∧ tail = []
    end.
Proof.
  destruct groups as [|item rest]; [intros [= <- <-]; by left|].
  intros Hrun. right. unfold check_cycle in Hrun.
  destruct (load_state STATE_FILE m) as [loaded m0] eqn:Hload.
  pose proof Hload as Hload'. rewrite load_state_eq in Hload'.
  injection Hload' as <- Hm0.
  rewrite (bind_ok _ _ _ _ _ Hload) in Hrun.
  match type of Hload with _ = (Ok ?p, _) =>
    destruct p as [state existed] eqn:Hp end.
  destruct (for_each_group mail existed (item :: rest) (state, false) m0)
    as [r1 m1] eqn:Hloop.
  destruct (for_each_group_run _ _ _ _ _ _ _ _ Hloop)
    as (cs & Hcs & Hall & _ & _ & Hr1).
  assert (∀ tail, calls m' = calls m1 ++ tail →
            new_calls m m' = CallLoadState STATE_FILE :: cs ++ tail) as Hnew.
  { intros tail Htail. apply new_calls_app.
    rewrite Htail, Hcs, <-Hm0. simpl. by rewrite <-!app_assoc. }
  destruct r1 as [[state' []]|e].
  - rewrite (bind_ok _ _ _ _ _ Hloop) in Hrun.
    pose proof Hrun as Hsave. rewrite save_state_eq in Hrun.
    injection Hrun as <- Hm'.
    exists state, existed, m0, (Ok (state', true)), m1, cs,
      [CallSaveState STATE_FILE state'].
    destruct Hr1 as (Hlen & _ & Hgrew & _).
    repeat split; try done.
    + apply Hnew. subst m'. by destruct (disk_writable m1).
    + by destruct (Hgrew eq_refl).
  - rewrite (bind_ok _ _ _ _ _ Hloop) in Hrun. injection Hrun as <- <-.
    exists state, existed, m0, (Ok (state', false)), m1, cs, [].
    destruct Hr1 as (Hlen & _ & _ & Hclean).
    repeat split; try done.
    + apply Hnew. by rewrite app_nil_r.
    + by destruct (Hclean eq_refl).
  - rewrite (bind_raise _ _ _ _ _ Hloop) in Hrun. injection Hrun as <- <-.
    exists state, existed, m0, (Raise e), m1, cs, [].
    repeat split; try done. apply Hnew. by rewrite app_nil_r.
Qed.

(** When no search finds anything, the loop returns what it was given and
    only searches. *)
Lemma no_news_run mail existed groups state dirty m :
  no_news existed groups state m →
  ∃ m' cs,
    for_each_group mail existed groups (state, dirty) m
    = (Ok (state, dirty), m') ∧
    calls m' = calls m ++ cs ∧
    Forall (λ c, is_send_email c = false ∧ is_save_state c = false) cs.
Proof.
  revert m. induction groups as [|[group_id info] rest IH]; intros m.
  - intros _. exists m, []. by rewrite app_nil_r.
  - cbn [no_news for_each_group].
    destruct (process_group_spec mail existed state dirty group_id info m)
      as (new_papers & m1 & Hsearch & Hstep).
    destruct (search_new_papers_total (keywords info)
                (seen_of state group_id) (search_window existed) m)
      as (? & ? & Hsearch' & Hcalls & _).
    rewrite Hsearch in Hsearch'. injection Hsearch' as <- <-.
    rewrite Hsearch. intros [[= ->] Hrest].
    destruct (IH _ Hrest) as (m' & cs & Hloop & Hc & Hcs).
    rewrite (bind_ok _ _ _ _ _ Hstep).
    eexists m', (_ :: cs). split; [done|]. split.
    + by rewrite Hc, Hcalls, <-app_assoc.
    + by constructor.
Qed.

(** An iteration of the polling loop never raises: whatever the cycle
    raises is caught, and the sleep follows. *)
Lemma main_iteration_total mail groups m :
  ∃ m', main_iteration mail groups m = (Ok (), m').
Proof.
  unfold main_iteration, try_except, mbind, M_bind, platform, mret, M_ret.
  destruct (check_cycle mail groups m) as [[[]|e] m1]; by eexists.
Qed.

End store_facts.

(** * The claims *)

Section claims.
Context {World : Type} `{!Platform World}.
Implicit Types (m : machine World) (state : seen_state).

(** C1. When the search of a group yields a non-empty candidate list, the
    step of the group loop calls [send_email] exactly once.  If that call
    returns [True], the group's entry becomes its previous seen set united
    with the identifiers of the candidates and the cycle is marked as
    changed; if it returns [False], state and change flag are exactly what
    they were before the step.  (Should the call raise, the exception leaves
    the step.) *)
Theorem notify_once_then_advance_or_keep mail existed state dirty group_id
    info m new_papers m1 :
  search_new_papers (keywords info) (seen_of state group_id)
    (search_window existed) m = (Ok new_papers, m1) →
  new_papers ≠ [] →
  ∃ subject body m1' sent m2,
    send_email subject body (SENDER_EMAIL mail) (SENDER_PASSWORD mail)
      (RECEIVER_EMAIL mail) (SMTP_SERVER mail) (SMTP_PORT mail) m1'
    = (sent, m2) ∧
    filter (λ c, is_send_email c) (new_calls m m2)
    = [CallSendEmail subject body] ∧
    match sent with
    | Ok true =>
        ∃ state',
          process_group mail existed (state, dirty) (group_id, info) m
          = (Ok (state', true), m2) ∧
          seen_of state' group_id
          = seen_of state group_id
            ∪ list_to_set
                ((λ p, paper_id_of (arxiv.entry_id p)) <$> new_papers)
    | Ok false =>
        process_group mail existed (state, dirty) (group_id, info) m
        = (Ok (state, dirty), m2)
    | Raise e =>
        process_group mail existed (state, dirty) (group_id, info) m
        = (Raise e, m2)
    end.
Proof.
  intros Hsearch Hne.
  destruct (process_group_spec mail existed state dirty group_id info m)
    as (new_papers' & m1' & Hsearch' & Hstep).
  rewrite Hsearch in Hsearch'. injection Hsearch' as <- <-.
  destruct (search_new_papers_total (keywords info) (seen_of state group_id)
              (search_window existed) m)
    as (? & ? & Hsearch' & Hcalls & _).
  rewrite Hsearch in Hsearch'. injection Hsearch' as <- <-.
  destruct new_papers as [|p ps]; [done|].
  destruct Hstep as (subject & body & m0 & sent & m2 & _ & Hsend & Hc2 & _
                     & _ & Hstep).
  exists subject, body, m0, sent, m2. split; [done|]. split.
  - rewrite (new_calls_app m m2
               [CallSearch (keywords info) (seen_of state group_id)
                  (search_window existed); CallSendEmail subject body]).
    + done.
    + by rewrite Hc2, Hcalls, <-app_assoc.
  - destruct sent as [[]|e]; [|done|done].
    eexists. split; [done|].
    by rewrite seen_of_set_eq, newly_found_ids_spec.
Qed.

(** C2. In a cycle every search is passed a window of exactly 7 days when
    [load_state] reported that the state file did not exist (or was not
    valid), and of exactly 24 hours, the check interval, when it reported
    that it did; a cycle that completes searches once for every group. *)
Theorem search_window_follows_load mail groups m state existed m0 r m' :
  load_state STATE_FILE m = (Ok (state, existed), m0) →
  check_cycle mail groups m = (r, m') →
  Forall (λ td, td = if existed then timedelta 0 24 else timedelta 7 0)
    (search_windows (new_calls m m')) ∧
  (r = Ok () → groups ≠ [] →
   List.length (search_windows (new_calls m m')) = List.length groups).
Proof.
  intros Hload Hrun.
  destruct (check_cycle_run _ _ _ _ _ Hrun)
    as [(-> & -> & ->)|(state' & existed' & m0' & r1 & m1 & cs & tail & Hne
                        & Hload' & Hloop & Hall & Hnew & Hend)].
  { unfold new_calls. rewrite drop_all. by split. }
  rewrite Hload in Hload'. injection Hload' as <- <- <-.
  assert (search_windows (new_calls m m') = search_windows cs) as ->.
  { rewrite Hnew. unfold search_windows. simpl. rewrite omap_app.
    destruct r1 as [[? []]|]; destruct_and!; subst tail; simpl;
      by rewrite app_nil_r. }
  split.
  - unfold search_windows. apply Forall_forall. intros td Htd.
    apply list_elem_of_omap in Htd as (c & Hc & Hsome).
    rewrite Forall_forall in Hall. specialize (Hall c Hc).
    destruct c; simplify_eq/=. by destruct existed.
  - intros -> _. destruct r1 as [[? []]|]; by destruct_and!.
Qed.

(** C3. A record yielded by the arXiv client is in the result of
    [search_new_papers] if and only if its publication time or its update
    time is at or after the cutoff and its paper identifier is not in the
    given seen set, where the cutoff is the current UTC time minus the given
    window; the result holds nothing but yielded records. *)
Theorem search_includes_iff_recent_and_unseen keywords seen_ids
    search_timedelta m now w results w' :
  datetime_now (world m) = (now, w) →
  arxiv_Search_results (build_query keywords) 100 w = (results, w') →
  ∃ new_papers m',
    search_new_papers keywords seen_ids search_timedelta m
    = (Ok new_papers, m') ∧
    let cutoff := now - search_timedelta in
    (∀ candidate, candidate ∈ arxiv.yielded results →
       (candidate ∈ new_papers ↔
        (cutoff ≤ arxiv.published candidate
         ∨ cutoff ≤ arxiv.updated candidate)
        ∧ paper_id_of (arxiv.entry_id candidate) ∉ seen_ids)) ∧
    (∀ paper, paper ∈ new_papers → paper ∈ arxiv.yielded results).
Proof.
  intros Hnow Hres. eexists _, _.
  split; [by eapply search_new_papers_eq|]. simpl. split.
  - intros candidate Hin. rewrite list_elem_of_filter, <-is_new_spec.
    rewrite Is_true_true. naive_solver.
  - intros paper Hin. by apply list_elem_of_filter in Hin as [_ ?].
Qed.


(** C5. [load_state] returns the empty mapping and [False] both when the
    state file is absent and when it is present but is not valid JSON; it
    returns (does not raise) in both cases, and the two returned values are
    the same. *)
Theorem load_state_absent_or_corrupt filepath m :
  disk m !! filepath = None ∨ disk m !! filepath = Some NotJson →
  load_state filepath m = (Ok ([], false), add_call (CallLoadState filepath) m).
Proof. intros [Hfile|Hfile]; by rewrite load_state_eq, Hfile. Qed.

(** C6, amended. When the iteration over the results raises,
    [search_new_papers] does not raise: it returns the new papers among the
    results yielded before the failure, which is the empty list when the
    failure comes before any result is yielded. *)
Theorem search_failure_keeps_papers_found_so_far keywords seen_ids
    search_timedelta m now w results w' :
  datetime_now (world m) = (now, w) →
  arxiv_Search_results (build_query keywords) 100 w = (results, w') →
  arxiv.raises results = true →
  ∃ m',
    search_new_papers keywords seen_ids search_timedelta m
    = (Ok (filter (λ r, is_new (now - search_timedelta) seen_ids r)
             (arxiv.yielded results)), m') ∧
    (arxiv.yielded results = [] →
     search_new_papers keywords seen_ids search_timedelta m = (Ok [], m')).
Proof.
  intros Hnow Hres _. eexists. split; [by eapply search_new_papers_eq|].
  intros Hnone. erewrite search_new_papers_eq by done. by rewrite Hnone.
Qed.

(** C8. Round trip through the state file, provided it can be opened for
    writing.  Saving the state loaded from a well-formed file writes back
    the same document with every array replaced by the sorted listing of its
    set of elements, which is the file itself when its arrays are sorted and
    free of duplicates; and loading after saving an in-memory state returns
    that state together with [True]. *)
Theorem save_load_round_trip filepath m :
  disk_writable m = true →
  (∀ data, dict_wf data → disk m !! filepath = Some (Document data) →
     ∃ m',
       (loaded ← load_state filepath; save_state filepath loaded.1) m
       = (Ok (), m') ∧
       disk m' !! filepath
       = Some (Document (prod_map id (py_sorted ∘ py_set) <$> data)) ∧
       (Forall (λ entry, canonical entry.2) data → disk m' = disk m)) ∧
  (∀ state, dict_wf state →
     ∃ m',
       (save_state filepath state;; load_state filepath) m
       = (Ok (state, true), m')).
Proof.
  intros Hw. split.
  - intros data Hwf Hfile. eexists.
    rewrite (bind_ok _ _ _ _ _ (load_state_eq filepath m)), Hfile.
    rewrite save_state_eq. simpl. rewrite Hw. split; [done|].
    rewrite dict_comprehension_wf by done. simpl.
    rewrite lookup_insert_eq, <-list_fmap_compose.
    assert (prod_map id py_sorted ∘ prod_map id py_set
            = prod_map (B := list string) id (py_sorted ∘ py_set)) as ->.
    { done. }
    split; [done|]. intros Hcanon.
    assert (prod_map id (py_sorted ∘ py_set) <$> data = data) as ->.
    { clear -Hcanon. induction Hcanon as [|[k ids] data Hc _ IH]; [done|].
      rewrite fmap_cons, IH. unfold prod_map at 1. simpl in *.
      by rewrite py_sorted_set_canonical. }
    by apply insert_id.
  - intros state Hwf. eexists.
    rewrite (bind_ok _ _ _ _ _ (save_state_eq filepath state m)).
    rewrite Hw. rewrite load_state_eq. simpl. rewrite lookup_insert_eq.
    rewrite dict_comprehension_wf.
    + rewrite <-list_fmap_compose.
      assert (prod_map id py_set ∘ prod_map id py_sorted
              = prod_map (A := string) id (py_set ∘ py_sorted)) as -> by done.
      assert (prod_map id (py_set ∘ py_sorted) <$> state = state) as ->;
        [|done].
      clear. induction state as [|[k ids] state IH]; [done|].
      rewrite fmap_cons, IH. unfold prod_map at 1. simpl.
      by rewrite py_set_sorted.
    + unfold dict_wf, dict_keys in *. rewrite <-list_fmap_compose.
      by assert (fst ∘ prod_map id py_sorted = (fst : string * gset string
                                                      → string)) as ->.
Qed.

(** C9. In every cycle [save_state] is called at most once, and only when
    some group's entry has gained an identifier.  If in a cycle the search
    of every group returns no candidate, then the cycle completes, no
    notification is sent, the in-memory state after the group loop is the
    loaded state, [save_state] is not called and the state file is not
    written. *)
Theorem no_news_cycle_is_idle mail groups m state existed m0 r m' :
  load_state STATE_FILE m = (Ok (state, existed), m0) →
  check_cycle mail groups m = (r, m') →
  (List.length (filter (λ c, is_save_state c) (new_calls m m')) ≤ 1)%nat ∧
  (filter (λ c, is_save_state c) (new_calls m m') ≠ [] →
   ∃ state' m1,
     for_each_group mail existed groups (state, false) m0
     = (Ok (state', true), m1) ∧
     state_grew state state') ∧
  (no_news existed groups state m0 →
   r = Ok () ∧
   (∃ m1, for_each_group mail existed groups (state, false) m0
          = (Ok (state, false), m1)) ∧
   filter (λ c, is_send_email c) (new_calls m m') = [] ∧
   filter (λ c, is_save_state c) (new_calls m m') = [] ∧
   disk m' = disk m).
Proof.
  intros Hload Hrun.
  destruct (check_cycle_run _ _ _ _ _ Hrun)
    as [(-> & -> & ->)|(state' & existed' & m0' & r1 & m1 & cs & tail & Hne
                        & Hload' & Hloop & Hall & Hnew & Hend)].
  { unfold new_calls. rewrite drop_all. simpl. split; [lia|].
    split; [done|]. intros _. repeat split; try done. by eexists. }
  rewrite Hload in Hload'. injection Hload' as <- <- <-.
  assert (filter (λ c, is_save_state c) cs = []) as Hnosave.
  { clear -Hall. induction Hall as [|c cs Hc _ IH]; [done|].
    rewrite filter_cons_False; [done|]. destruct c; simpl in *; auto. }
  assert (filter (λ c, is_save_state c) (new_calls m m')
          = filter (λ c, is_save_state c) tail) as Hsaves.
  { rewrite Hnew, filter_cons_False by (simpl; auto).
    by rewrite filter_app, Hnosave. }
  rewrite Hsaves. split; [|split].
  - destruct r1 as [[? []]|]; destruct_and!; subst tail; simpl; lia.
  - intros Hsaved. destruct r1 as [[state' []]|]; destruct_and!; subst tail;
      try done.
    by exists state', m1.
  - intros Hidle.
    destruct (no_news_run mail existed groups state false m0 Hidle)
      as (m1' & cs' & Hloop' & Hcs' & Hquiet).
    rewrite Hloop in Hloop'. injection Hloop' as -> <-.
    destruct Hend as (-> & -> & -> & _ & _).
    split; [done|]. split; [by eexists|].
    destruct (for_each_group_run _ _ _ _ _ _ _ _ Hloop)
      as (_ & _ & _ & Hdisk & _).
    rewrite load_state_eq in Hload. injection Hload as _ <-.
    rewrite app_nil_r in Hnew.
    rewrite (new_calls_app m m1 (CallLoadState STATE_FILE :: cs')) in Hnew
      by (rewrite Hcs'; simpl; by rewrite <-app_assoc).
    injection Hnew as <-.
    rewrite (new_calls_app m m1 (CallLoadState STATE_FILE :: cs'))
      by (rewrite Hcs'; simpl; by rewrite <-app_assoc).
    repeat split; try done.
    rewrite filter_cons_False by (simpl; auto).
    clear -Hquiet. induction Hquiet as [|c quiet [Hc _] _ IH]; [done|].
    rewrite filter_cons_False; [done|]. rewrite Hc. auto.
Qed.

(** C10. The identifier of a paper is the last slash-separated segment of
    its entry link: it holds no slash and the link is the identifier alone
    or ends in a slash followed by it.  The search tests this identifier
    against the seen set, and a successful notification adds exactly these
    identifiers to the entry of the group.  The segment keeps the version
    suffix, so a result whose link ends in [2301.12345v2] is new to a group
    that has seen [2301.12345v1] only. *)
Theorem paper_id_is_versioned_last_segment :
  (∀ link,
     Str.mem Str.slash (paper_id_of link) = false ∧
     (link = paper_id_of link
      ∨ ∃ prefix, link = prefix +:+ String Str.slash (paper_id_of link))) ∧
  (∀ keywords seen_ids search_timedelta m new_papers m1 paper,
     search_new_papers keywords seen_ids search_timedelta m
     = (Ok new_papers, m1) →
     paper ∈ new_papers → paper_id_of (arxiv.entry_id paper) ∉ seen_ids) ∧
  (∀ mail existed state group_id info m new_papers m1 state' m2,
     search_new_papers (keywords info) (seen_of state group_id)
       (search_window existed) m = (Ok new_papers, m1) →
     process_group mail existed (state, false) (group_id, info) m
     = (Ok (state', true), m2) →
     ∀ id, id ∈ seen_of state' group_id ↔
           id ∈ seen_of state group_id
           ∨ ∃ paper, paper ∈ new_papers
                      ∧ id = paper_id_of (arxiv.entry_id paper)) ∧
  paper_id_of "http://arxiv.org/abs/2301.12345v1" = "2301.12345v1" ∧
  (∀ cutoff_date seen_ids result,
     arxiv.entry_id result = "http://arxiv.org/abs/2301.12345v2" →
     "2301.12345v2" ∉ seen_ids →
     cutoff_date ≤ arxiv.updated result →
     is_new cutoff_date seen_ids result = true).
Proof.
  split; [|split; [|split; [|split]]].
  - intros link. destruct (paper_id_of_last_segment link) as [Hmem Hshape].
    split; [done|]. destruct Hshape as [[_ ?]|(_ & _ & _ & _ & ?)]; auto.
  - intros keywords seen_ids td m new_papers m1 paper Hsearch Hin.
    destruct (search_new_papers_total keywords seen_ids td m)
      as (? & ? & Hsearch' & _ & _ & _ & Hunseen).
    rewrite Hsearch in Hsearch'. injection Hsearch' as <- <-.
    rewrite Forall_forall in Hunseen. by apply Hunseen.
  - intros mail existed state group_id info m new_papers m1 state' m2
      Hsearch Hstep id.
    destruct (process_group_spec mail existed state false group_id info m)
      as (new_papers' & m1' & Hsearch' & Hspec).
    rewrite Hsearch in Hsearch'. injection Hsearch' as <- <-.
    destruct new_papers as [|p ps].
    { rewrite Hspec in Hstep. by injection Hstep. }
    destruct Hspec as (? & ? & ? & sent & ? & _ & _ & _ & _ & _ & Hspec).
    rewrite Hspec in Hstep. destruct sent as [[]|]; [|done|done].
    injection Hstep as <- <-.
    by rewrite seen_of_set_eq, elem_of_union, elem_of_newly_found_ids.
  - done.
  - intros cutoff_date seen_ids result Hlink Hunseen Hrecent.
    apply is_new_spec. rewrite Hlink. split; [by right|done].
Qed.

End claims.

(** ** Start-up *)

(** The settings are read whenever [SMTP_PORT] is unset or is a decimal
    literal. *)
Lemma module_configuration_ok environ :
  (os_getenv environ "SMTP_PORT" = None
   ∨ ∃ text port, os_getenv environ "SMTP_PORT" = Some text
                  ∧ PyInt.int text = Ok port) →
  ∃ mail, module_configuration environ = Ok mail.
Proof.
  unfold module_configuration.
  intros [->|(text & port & -> & ->)]; by eexists.
Qed.

(** C7. The claim that no configuration error ends the process fails at
    start-up: with [SMTP_PORT] set to a text that is not a decimal literal,
    or set to the empty text, reading the mail settings raises [ValueError]
    outside any handler. *)
Theorem invalid_smtp_port_ends_startup :
  module_configuration
    [("KEYWORD_GROUP_ml", "diffusion, sampling");
     ("SENDER_EMAIL", "me@example.org"); ("SMTP_PORT", "smtp")]
  = Raise ValueError ∧
  module_configuration [("SMTP_PORT", "")] = Raise ValueError.
Proof. split; reflexivity. Qed.

(** ** Concrete runs *)

(** C6 as stated fails: a feed that yields one recent, unseen paper and
    then raises makes the search return that paper. *)
Lemma search_failure_can_return_papers :
  ¬ failure_gives_no_results (World := Sample.scenario).
Proof.
  intros Hclaim.
  specialize (Hclaim ["diffusion"; "sampling"] ∅ (timedelta 7 0)
                Sample.interrupted_run _ _ _ _ eq_refl eq_refl eq_refl).
  vm_compute in Hclaim. discriminate.
Qed.


(** C1 on the first run: one paper is found, the mail is delivered, and
    the group's entry becomes the identifier of that paper. *)
Lemma notify_once_witness :
  ∃ subject body m1' sent m2,
    send_email subject body (SENDER_EMAIL Sample.mail)
      (SENDER_PASSWORD Sample.mail) (RECEIVER_EMAIL Sample.mail)
      (SMTP_SERVER Sample.mail) (SMTP_PORT Sample.mail) m1'
    = (sent, m2) ∧
    filter (λ c, is_send_email c) (new_calls Sample.first_run m2)
    = [CallSendEmail subject body] ∧
    match sent with
    | Ok true =>
        ∃ state',
          process_group Sample.mail false ([], false) Sample.ml
            Sample.first_run
          = (Ok (state', true), m2) ∧
          seen_of state' "group_ml"
          = seen_of [] "group_ml"
            ∪ list_to_set
                ((λ p, paper_id_of (arxiv.entry_id p)) <$> [Sample.paper_b])
    | Ok false =>
        process_group Sample.mail false ([], false) Sample.ml Sample.first_run
        = (Ok ([], false), m2)
    | Raise e =>
        process_group Sample.mail false ([], false) Sample.ml Sample.first_run
        = (Raise e, m2)
    end.
Proof.
  eapply (notify_once_then_advance_or_keep Sample.mail false [] false
            "group_ml" Sample.ml.2 Sample.first_run [Sample.paper_b]).
  - vm_compute. reflexivity.
  - discriminate.
Defined.

(** C2 on the first run (no state file, 7 days) *)
Lemma search_window_witness :
  Forall (λ td, td = if false then timedelta 0 24 else timedelta 7 0)
    (search_windows
       (new_calls Sample.first_run
          (check_cycle Sample.mail [Sample.ml] Sample.first_run).2)) ∧
  ((check_cycle Sample.mail [Sample.ml] Sample.first_run).1 = Ok () →
   [Sample.ml] ≠ [] →
   List.length
     (search_windows
        (new_calls Sample.first_run
           (check_cycle Sample.mail [Sample.ml] Sample.first_run).2))
   = List.length [Sample.ml]).
Proof.
  eapply (search_window_follows_load Sample.mail [Sample.ml] Sample.first_run
            [] false).
  - vm_compute. reflexivity.
  - vm_compute. reflexivity.
Defined.

(** C3 on the later run: version 2 is recent and unseen, version 1 is
    neither. *)
Lemma search_includes_witness :
  ∃ new_papers m',
    search_new_papers ["diffusion"; "sampling"]
      {[ "2301.12345v1"; "2404.00001v1" ]} (timedelta 0 24) Sample.later_run
    = (Ok new_papers, m') ∧
    let cutoff := Sample.noon - timedelta 0 24 in
    (∀ candidate,
       candidate ∈ arxiv.yielded
         (arxiv.Yield Sample.paper_v2
            (arxiv.Yield Sample.paper_v1 arxiv.Exhausted)) →
       (candidate ∈ new_papers ↔
        (cutoff ≤ arxiv.published candidate
         ∨ cutoff ≤ arxiv.updated candidate)
        ∧ paper_id_of (arxiv.entry_id candidate)
          ∉ ({[ "2301.12345v1"; "2404.00001v1" ]} : gset string))) ∧
    (∀ paper, paper ∈ new_papers →
       paper ∈ arxiv.yielded
         (arxiv.Yield Sample.paper_v2
            (arxiv.Yield Sample.paper_v1 arxiv.Exhausted))).
Proof.
  eapply (search_includes_iff_recent_and_unseen ["diffusion"; "sampling"]
            {[ "2301.12345v1"; "2404.00001v1" ]} (timedelta 0 24)
            Sample.later_run Sample.noon).
  - reflexivity.
  - reflexivity.
Defined.


(** C5 on a machine without state file and on one whose state file is
    not valid JSON *)
Lemma load_state_absent_or_corrupt_witness :
  load_state STATE_FILE Sample.first_run
  = (Ok ([], false), add_call (CallLoadState STATE_FILE) Sample.first_run) ∧
  load_state STATE_FILE Sample.damaged_run
  = (Ok ([], false), add_call (CallLoadState STATE_FILE) Sample.damaged_run).
Proof.
  split.
  - apply (load_state_absent_or_corrupt STATE_FILE Sample.first_run).
    left. reflexivity.
  - apply (load_state_absent_or_corrupt STATE_FILE Sample.damaged_run).
    right. reflexivity.
Defined.

(** C6, amended, on the interrupted run: the paper yielded before the
    failure is returned. *)
Lemma search_failure_witness :
  ∃ m',
    search_new_papers ["diffusion"; "sampling"] ∅ (timedelta 7 0)
      Sample.interrupted_run
    = (Ok (filter (λ r, is_new (Sample.noon - timedelta 7 0) ∅ r)
             (arxiv.yielded (arxiv.Yield Sample.paper_b arxiv.Raises))), m') ∧
    (arxiv.yielded (arxiv.Yield Sample.paper_b arxiv.Raises) = [] →
     search_new_papers ["diffusion"; "sampling"] ∅ (timedelta 7 0)
       Sample.interrupted_run = (Ok [], m')).
Proof.
  eapply (search_failure_keeps_papers_found_so_far ["diffusion"; "sampling"]
            ∅ (timedelta 7 0) Sample.interrupted_run Sample.noon).
  - reflexivity.
  - reflexivity.
  - reflexivity.
Defined.

(** C8 on the later run: the file on disk is canonical and survives a load
    followed by a save; a state of two groups survives a save followed by a
    load. *)
Lemma save_load_round_trip_witness :
  (∃ m',
     (loaded ← load_state STATE_FILE; save_state STATE_FILE loaded.1)
       Sample.later_run = (Ok (), m') ∧
     disk m' = disk Sample.later_run) ∧
  (∃ m',
     (save_state STATE_FILE
        [("group_ml", {[ "2404.00001v1"; "2301.12345v1" ]});
         ("group_nlp", ∅)];;
      load_state STATE_FILE) Sample.later_run
     = (Ok ([("group_ml", {[ "2404.00001v1"; "2301.12345v1" ]});
             ("group_nlp", ∅)], true), m')).
Proof.
  destruct (save_load_round_trip STATE_FILE Sample.later_run eq_refl)
    as [Hfile Hstate].
  split.
  - destruct (Hfile [("group_ml", ["2301.12345v1"; "2404.00001v1"])])
      as (m' & Hrun & _ & Hsame).
    + unfold dict_wf, dict_keys. simpl. apply NoDup_singleton.
    + reflexivity.
    + exists m'. split; [exact Hrun|]. apply Hsame.
      repeat constructor; simpl; vm_compute; intuition discriminate.
  - apply Hstate. unfold dict_wf, dict_keys. simpl.
    apply NoDup_cons. split; [|apply NoDup_singleton].
    intros Hin. apply list_elem_of_singleton in Hin. discriminate.
Defined.

(** C9 on the quiet run: nothing is found, nothing is sent, nothing is
    saved. *)
Lemma no_news_cycle_witness :
  (check_cycle Sample.mail [Sample.ml] Sample.quiet_run).1 = Ok () ∧
  filter (λ c, is_send_email c)
    (new_calls Sample.quiet_run
       (check_cycle Sample.mail [Sample.ml] Sample.quiet_run).2) = [] ∧
  filter (λ c, is_save_state c)
    (new_calls Sample.quiet_run
       (check_cycle Sample.mail [Sample.ml] Sample.quiet_run).2) = [] ∧
  disk (check_cycle Sample.mail [Sample.ml] Sample.quiet_run).2
  = disk Sample.quiet_run.
Proof.
  destruct (no_news_cycle_is_idle Sample.mail [Sample.ml] Sample.quiet_run
              [("group_ml", {[ "2301.12345v1"; "2404.00001v1" ]})] true
              (add_call (CallLoadState STATE_FILE) Sample.quiet_run)
              (check_cycle Sample.mail [Sample.ml] Sample.quiet_run).1
              (check_cycle Sample.mail [Sample.ml] Sample.quiet_run).2)
    as (_ & _ & Hidle).
  - vm_compute. reflexivity.
  - vm_compute. reflexivity.
  - destruct Hidle as (Hr & _ & Hmail & Hsave & Hdisk).
    + vm_compute. split; reflexivity.
    + repeat split; assumption.
Defined.

(** C10 on the later run: version 2 of a paper seen as version 1 is
    returned by the search. *)
Lemma paper_id_witness :
  (paper_id_of (arxiv.entry_id Sample.paper_v2)
   ∉ seen_of Sample.seen_on_file "group_ml") ∧
  is_new (Sample.noon - timedelta 0 24) {[ "2301.12345v1" ]} Sample.paper_v2
  = true.
Proof.
  destruct paper_id_is_versioned_last_segment
    as (_ & Hsearch & _ & _ & Hversion).
  split.
  - eapply (Hsearch ["diffusion"; "sampling"]
              (seen_of Sample.seen_on_file "group_ml") (timedelta 0 24)
              Sample.later_run [Sample.paper_v2] _ Sample.paper_v2).
    + vm_compute. reflexivity.
    + left.
  - apply Hversion.
    + reflexivity.
    + vm_compute. intros Hin. discriminate.
    + vm_compute. discriminate.
Defined.

(** * Further properties of the script *)

(** ** The notifier *)

Section notifier_properties.
Context {World : Type} `{!Platform World}.
Implicit Types (m : machine World) (state : seen_state).

Lemma send_email_complete subject body sender password receiver server port m :
  truthy sender = true → truthy password = true → truthy receiver = true →
  server ≠ "" → port ≠ 0 →
  send_email subject body sender password receiver server port m
  = (let msg := {| Subject := subject; From := default "" sender;
                   To := default "" receiver; content := body |} in
     match EmailMessage_raises msg with
     | Some e => (Raise e, add_call (CallSendEmail subject body) m)
     | None =>
         let '(outcome, w) :=
           smtp_session (port =? 465) server port (default "" sender)
             (default "" password) msg (world m) in
         (Ok match outcome with Delivered => true | _ => false end,
          set_world w (add_call (CallSendEmail subject body) m))
     end).
Proof.
  intros Hs Hp Hr Hserver Hport.
  unfold send_email, mbind, M_bind, trace, platform, mret, M_ret, raise.
  simpl. rewrite Hs, Hp, Hr. simpl.
  rewrite bool_decide_eq_false_2 by done. simpl.
  assert ((port =? 0) = false) as -> by by apply Z.eqb_neq.
  simpl. destruct (EmailMessage_raises _); [done|].
  by destruct (smtp_session _ _ _ _ _ _ _) as [[] w].
Qed.

Lemma complete_or_incomplete sender password receiver server port :
  (truthy sender = true ∧ truthy password = true ∧ truthy receiver = true
   ∧ server ≠ "" ∧ port ≠ 0)
  ∨ (truthy sender = false ∨ truthy password = false
     ∨ truthy receiver = false ∨ server = "" ∨ port = 0).
Proof.
  destruct (truthy sender); [|by right; left].
  destruct (truthy password); [|by right; right; left].
  destruct (truthy receiver); [|by right; right; right; left].
  destruct (decide (server = "")); [by right; right; right; right; left|].
  destruct (decide (port = 0)); [by right; right; right; right; right|].
  by left.
Qed.

(** X2. [send_email] raises only when assembling the message raises; every
    setting was then present, and no SMTP session was run. *)
Theorem send_email_raises_only_on_assembly subject body sender password
    receiver server port m e m' :
  send_email subject body sender password receiver server port m
  = (Raise e, m') →
  EmailMessage_raises {| Subject := subject; From := default "" sender;
                         To := default "" receiver; content := body |}
  = Some e ∧
  (truthy sender = true ∧ truthy password = true ∧ truthy receiver = true
   ∧ server ≠ "" ∧ port ≠ 0) ∧
  m' = add_call (CallSendEmail subject body) m.
Proof.
  destruct (complete_or_incomplete sender password receiver server port)
    as [(Hs & Hp & Hr & Hserver & Hport)|Hmissing].
  - rewrite send_email_complete by done. simpl.
    destruct (EmailMessage_raises _) as [e'|].
    + intros [= <- <-]. done.
    + destruct (smtp_session _ _ _ _ _ _ _) as [[] w]; discriminate.
  - rewrite send_email_incomplete by done. discriminate.
Qed.

(** X3. Start-up succeeds without sender, password or receiver, and with
    the settings it returns every [send_email] fails closed: when one of
    the three variables is unset or empty, the server is set to the empty
    text or the port is zero, [send_email] returns [False] and leaves the
    world as it is. *)
Theorem missing_mail_settings_fail_closed environ mail subject body m :
  module_configuration environ = Ok mail →
  truthy (os_getenv environ "SENDER_EMAIL") = false
  ∨ truthy (os_getenv environ "SENDER_PASSWORD") = false
  ∨ truthy (os_getenv environ "RECEIVER_EMAIL") = false
  ∨ os_getenv environ "SMTP_SERVER" = Some ""
  ∨ os_getenv environ "SMTP_PORT" = Some "0" →
  send_email subject body (SENDER_EMAIL mail) (SENDER_PASSWORD mail)
    (RECEIVER_EMAIL mail) (SMTP_SERVER mail) (SMTP_PORT mail) m
  = (Ok false, add_call (CallSendEmail subject body) m).
Proof.
  unfold module_configuration. intros Hconf Hmissing.
  apply send_email_incomplete.
  destruct (os_getenv environ "SMTP_PORT") as [text|] eqn:Hport.
  - destruct (PyInt.int text) as [port|] eqn:Hint; [|done].
    injection Hconf as <-. simpl.
    destruct Hmissing as [?|[?|[?|[Hserver|Hzero]]]]; auto.
    + right; right; right; left. by rewrite Hserver.
    + injection Hzero as ->. vm_compute in Hint. injection Hint as <-.
      by right; right; right; right.
  - injection Hconf as <-. simpl.
    destruct Hmissing as [?|[?|[?|[Hserver|Hzero]]]]; auto.
    + right; right; right; left. by rewrite Hserver.
    + done.
Qed.

End notifier_properties.

(** ** Cycles *)

Section cycle_properties.
Context {World : Type} `{!Platform World}.
Implicit Types (m : machine World) (state : seen_state).

Lemma group_calls_no_store existed cs :
  Forall (group_call existed) cs →
  filter (λ c, is_save_state c) cs = [] ∧
  filter (λ c, is_load_state c) cs = [].
Proof.
  induction 1 as [|c cs Hc _ [IHs IHl]]; [done|].
  rewrite !filter_cons_False; [done|..]; destruct c; simpl in *; auto.
Qed.

(** The calls of a cycle extend the calls made before it. *)
Lemma check_cycle_calls mail groups m r m' :
  check_cycle mail groups m = (r, m') →
  calls m' = calls m ++ new_calls m m'.
Proof.
  intros Hrun.
  destruct (check_cycle_run _ _ _ _ _ Hrun)
    as [(-> & -> & ->)|(state & existed & m0 & r1 & m1 & cs & tail & _
                        & Hload & Hloop & _ & _ & Hend)].
  { unfold new_calls. by rewrite drop_all, app_nil_r. }
  rewrite load_state_eq in Hload. injection Hload as _ <-.
  destruct (for_each_group_run _ _ _ _ _ _ _ _ Hloop) as (cs' & Hcs' & _).
  simpl in Hcs'.
  assert (∃ rest, calls m' = calls m ++ rest) as [rest Hrest].
  { destruct r1 as [[state' []]|e].
    - destruct Hend as (_ & Hsave & _). rewrite save_state_eq in Hsave.
      injection Hsave as <-. eexists.
      destruct (disk_writable m1); simpl; rewrite Hcs', <-!app_assoc; done.
    - destruct Hend as (_ & -> & _). eexists. by rewrite Hcs', <-app_assoc.
    - destruct Hend as (_ & -> & _). eexists. by rewrite Hcs', <-app_assoc. }
  by rewrite (new_calls_app _ _ _ Hrest).
Qed.

Lemma process_group_incomplete mail existed state dirty group_id info m :
  incomplete mail →
  ∃ m', process_group mail existed (state, dirty) (group_id, info) m
        = (Ok (state, dirty), m').
Proof.
  intros Hmissing.
  destruct (process_group_spec mail existed state dirty group_id info m)
    as (new_papers & m1 & _ & Hstep).
  destruct new_papers as [|p ps]; [by eexists|].
  destruct Hstep as (subject & body & m0 & sent & m2 & _ & Hsend & _ & _ & _
                     & Hstep).
  rewrite send_email_incomplete in Hsend by done.
  injection Hsend as <- _. by eexists.
Qed.

Lemma for_each_group_incomplete mail existed groups state dirty m :
  incomplete mail →
  ∃ m', for_each_group mail existed groups (state, dirty) m
        = (Ok (state, dirty), m').
Proof.
  intros Hmissing. revert m.
  induction groups as [|[group_id info] rest IH]; intros m;
    cbn [for_each_group]; [by eexists|].
  destruct (process_group_incomplete mail existed state dirty group_id info m
              Hmissing) as [m1 Hstep].
  rewrite (bind_ok _ _ _ _ _ Hstep). apply IH.
Qed.

(** X4. With an incomplete mail configuration a cycle still completes, but
    it never advances: the state file is not written and [save_state] is
    not called, whatever the searches find. *)
Theorem incomplete_mail_never_advances mail groups m :
  incomplete mail →
  ∃ m',
    check_cycle mail groups m = (Ok (), m') ∧ disk m' = disk m ∧
    filter (λ c, is_save_state c) (new_calls m m') = [].
Proof.
  intros Hmissing.
  destruct (check_cycle mail groups m) as [r m'] eqn:Hrun. exists m'.
  destruct (check_cycle_run _ _ _ _ _ Hrun)
    as [(-> & -> & ->)|(state & existed & m0 & r1 & m1 & cs & tail & _
                        & Hload & Hloop & Hall & Hnew & Hend)].
  { unfold new_calls. by rewrite drop_all. }
  destruct (for_each_group_incomplete mail existed groups state false m0
              Hmissing) as [m1' Hloop'].
  rewrite Hloop in Hloop'. injection Hloop' as -> <-.
  destruct Hend as (-> & -> & -> & _).
  destruct (for_each_group_run _ _ _ _ _ _ _ _ Hloop) as (_ & _ & _ & Hd & _).
  rewrite load_state_eq in Hload. injection Hload as _ <-.
  split; [done|]. split; [done|].
  rewrite Hnew, app_nil_r, filter_cons_False by (simpl; auto).
  by apply (group_calls_no_store existed).
Qed.

(** X5. A cycle touches no file but the state file, never changes whether
    the disk is writable, and leaves the whole disk as it is when the state
    file cannot be opened for writing. *)
Theorem cycle_touches_only_state_file mail groups m r m' :
  check_cycle mail groups m = (r, m') →
  (∀ filepath, filepath ≠ STATE_FILE →
     disk m' !! filepath = disk m !! filepath) ∧
  disk_writable m' = disk_writable m ∧
  (disk_writable m = false → disk m' = disk m).
Proof.
  intros Hrun.
  destruct (check_cycle_run _ _ _ _ _ Hrun)
    as [(-> & -> & ->)|(state & existed & m0 & r1 & m1 & cs & tail & _
                        & Hload & Hloop & _ & _ & Hend)]; [done|].
  rewrite load_state_eq in Hload. injection Hload as _ <-.
  destruct (for_each_group_run _ _ _ _ _ _ _ _ Hloop)
    as (_ & _ & _ & Hd & Hw & _). simpl in Hd, Hw.
  destruct r1 as [[state' []]|e].
  - destruct Hend as (_ & Hsave & _). rewrite save_state_eq in Hsave.
    injection Hsave as <-. rewrite Hw.
    destruct (disk_writable m) eqn:Hwm; simpl.
    + split; [|by rewrite Hw]. intros filepath Hne.
      by rewrite lookup_insert_ne, Hd.
    + by rewrite Hd, Hw.
  - destruct Hend as (_ & -> & _). by rewrite Hd, Hw.
  - destruct Hend as (_ & -> & _). by rewrite Hd, Hw.
Qed.

Lemma process_group_raise mail existed state dirty group_id info m e m' :
  process_group mail existed (state, dirty) (group_id, info) m
  = (Raise e, m') →
  ∃ msg, EmailMessage_raises msg = Some e.
Proof.
  intros Hrun.
  destruct (process_group_spec mail existed state dirty group_id info m)
    as (new_papers & m1 & _ & Hstep).
  destruct new_papers as [|p ps]; [by rewrite Hstep in Hrun|].
  destruct Hstep as (subject & body & m0 & sent & m2 & _ & Hsend & _ & _ & _
                     & Hstep).
  rewrite Hstep in Hrun. destruct sent as [[]|e']; try done.
  injection Hrun as -> _.
  destruct (complete_or_incomplete (SENDER_EMAIL mail) (SENDER_PASSWORD mail)
              (RECEIVER_EMAIL mail) (SMTP_SERVER mail) (SMTP_PORT mail))
    as [(Hs & Hp & Hr & Hserver & Hport)|Hmissing].
  - rewrite send_email_complete in Hsend by done. simpl in Hsend.
    destruct (EmailMessage_raises _) as [e'|] eqn:Hmsg.
    + injection Hsend as -> _. by eexists.
    + destruct (smtp_session _ _ _ _ _ _ _) as [[] w]; discriminate.
  - rewrite send_email_incomplete in Hsend by done. discriminate.
Qed.

Lemma for_each_group_raise mail existed groups state dirty m e m' :
  for_each_group mail existed groups (state, dirty) m = (Raise e, m') →
  ∃ msg, EmailMessage_raises msg = Some e.
Proof.
  revert state dirty m.
  induction groups as [|[group_id info] rest IH]; intros state dirty m;
    cbn [for_each_group]; [done|].
  destruct (process_group mail existed (state, dirty) (group_id, info) m)
    as [[[state1 dirty1]|e1] m1] eqn:Hstep.
  - rewrite (bind_ok _ _ _ _ _ Hstep). apply IH.
  - rewrite (bind_raise _ _ _ _ _ Hstep). intros [= <- <-].
    by eapply process_group_raise.
Qed.

(** X6. A cycle raises only when assembling a digest message raised: no
    search failure, SMTP failure, unreadable or unwritable state file aborts
    it.  A cycle that does raise is abandoned without saving: the disk is
    as before and [save_state] was not called, whatever earlier groups of
    the same cycle were notified. *)
Theorem aborted_cycle_saves_nothing mail groups m e m' :
  check_cycle mail groups m = (Raise e, m') →
  (∃ msg, EmailMessage_raises msg = Some e) ∧
  disk m' = disk m ∧
  filter (λ c, is_save_state c) (new_calls m m') = [].
Proof.
  intros Hrun.
  destruct (check_cycle_run _ _ _ _ _ Hrun)
    as [(_ & ? & _)|(state & existed & m0 & r1 & m1 & cs & tail & _
                     & Hload & Hloop & Hall & Hnew & Hend)]; [done|].
  destruct r1 as [[state' []]|e']; try by destruct Hend.
  destruct Hend as ([= <-] & -> & ->).
  rewrite load_state_eq in Hload. injection Hload as _ <-.
  destruct (for_each_group_run _ _ _ _ _ _ _ _ Hloop) as (_ & _ & _ & Hd & _).
  split; [by eapply for_each_group_raise|]. split; [done|].
  rewrite Hnew, app_nil_r, filter_cons_False by (simpl; auto).
  by apply (group_calls_no_store existed).
Qed.

End cycle_properties.

(** ** The state across steps and cycles *)

Lemma dict_set_keys_present {V} k (v : V) (d : pydict V) :
  k ∈ dict_keys d → dict_keys (dict_set k v d) = dict_keys d.
Proof.
  unfold dict_keys. induction d as [|[k' v'] d IH]; simpl.
  - by intros ?%elem_of_nil.
  - intros Hin. destruct (decide (k = k')) as [->|Hne]; [done|].
    simpl. f_equal. apply IH. by apply elem_of_cons in Hin as [?|?].
Qed.

Lemma dict_set_wf {V} k (v : V) (d : pydict V) :
  dict_wf d → dict_wf (dict_set k v d).
Proof.
  unfold dict_wf. intros Hwf. destruct (decide (k ∈ dict_keys d)) as [Hin|Hout].
  - by rewrite dict_set_keys_present.
  - rewrite dict_set_fresh by done. unfold dict_keys in *.
    rewrite fmap_app. simpl. apply NoDup_app. split; [done|].
    split; [|apply NoDup_singleton].
    intros x Hx ->%list_elem_of_singleton. done.
Qed.

Lemma dict_comprehension_is_wf {A B} (f : A → B) (items : list (string * A)) :
  dict_wf (dict_comprehension f items).
Proof.
  unfold dict_comprehension.
  enough (∀ acc : pydict B, dict_wf acc →
            dict_wf (foldl (λ d kv, dict_set kv.1 (f kv.2) d) acc items))
    as Hgen by (apply Hgen; constructor).
  induction items as [|[k a] items IH]; intros acc Hacc; simpl; [done|].
  by apply IH, dict_set_wf.
Qed.

Lemma saved_state_loads_back (state : seen_state) :
  dict_wf state →
  dict_comprehension py_set (prod_map id py_sorted <$> state) = state.
Proof.
  intros Hwf. rewrite dict_comprehension_wf.
  - induction state as [|[k ids] state IH]; [done|].
    rewrite !fmap_cons, IH.
    + unfold prod_map at 1 2. simpl. by rewrite py_set_sorted.
    + by apply NoDup_cons in Hwf as [_ ?].
  - unfold dict_wf, dict_keys in *. rewrite <-list_fmap_compose.
    by assert (fst ∘ prod_map id py_sorted
               = (fst : string * gset string → string)) as ->.
Qed.

Section state_properties.
Context {World : Type} `{!Platform World}.
Implicit Types (m : machine World) (state : seen_state).

(** A step either keeps the state or assigns the entry of its group. *)
Lemma process_group_shape mail existed state dirty group_id info m state'
    dirty' m' :
  process_group mail existed (state, dirty) (group_id, info) m
  = (Ok (state', dirty'), m') →
  state' = state ∨ ∃ ids, state' = dict_set group_id ids state.
Proof.
  intros Hrun.
  destruct (process_group_spec mail existed state dirty group_id info m)
    as (new_papers & m1 & _ & Hstep).
  destruct new_papers as [|p ps].
  { rewrite Hstep in Hrun. injection Hrun as <- _ _. by left. }
  destruct Hstep as (? & ? & ? & sent & ? & _ & _ & _ & _ & _ & Hstep).
  rewrite Hstep in Hrun. destruct sent as [[]|]; [| |done].
  - injection Hrun as <- _ _. right. by eexists.
  - injection Hrun as <- _ _. by left.
Qed.

Lemma for_each_group_shape mail existed groups state dirty m state' dirty'
    m' :
  for_each_group mail existed groups (state, dirty) m
  = (Ok (state', dirty'), m') →
  (dict_wf state → dict_wf state') ∧
  (∀ g, g ∉ groups.*1 → dict_get g state' = dict_get g state) ∧
  (∀ g, is_Some (dict_get g state) → is_Some (dict_get g state')).
Proof.
  revert state dirty m.
  induction groups as [|[group_id info] rest IH]; intros state dirty m;
    cbn [for_each_group].
  - intros [= <- <- <-]. done.
  - destruct (process_group mail existed (state, dirty) (group_id, info) m)
      as [[[state1 dirty1]|e1] m1] eqn:Hstep.
    2:{ by rewrite (bind_raise _ _ _ _ _ Hstep). }
    rewrite (bind_ok _ _ _ _ _ Hstep). intros Hrest.
    destruct (IH _ _ _ Hrest) as (Hwf & Hother & Hkeys).
    destruct (process_group_shape _ _ _ _ _ _ _ _ _ _ Hstep)
      as [->|[ids ->]].
    + split; [done|]. split; [|done].
      intros g Hg. apply Hother. simpl in Hg. set_solver.
    + split; [|split].
      * intros Hs. by apply Hwf, dict_set_wf.
      * intros g Hg. simpl in Hg. apply not_elem_of_cons in Hg as [Hne Hg].
        rewrite (Hother g Hg). by apply dict_get_set_ne.
      * intros g Hg. apply Hkeys.
        destruct (decide (group_id = g)) as [<-|Hne].
        -- by rewrite dict_get_set_eq.
        -- by rewrite dict_get_set_ne.
Qed.

(** X7. Entries of groups that are not in the configuration, left in the
    state by an earlier configuration, pass through the group loop
    unchanged, and no group present before the loop is absent after it. *)
Theorem unconfigured_groups_are_carried mail existed groups state dirty m
    state' dirty' m' :
  for_each_group mail existed groups (state, dirty) m
  = (Ok (state', dirty'), m') →
  (∀ g, g ∉ groups.*1 → dict_get g state' = dict_get g state) ∧
  (∀ g, is_Some (dict_get g state) → is_Some (dict_get g state')).
Proof.
  intros Hloop.
  by destruct (for_each_group_shape _ _ _ _ _ _ _ _ _ Hloop) as (_ & ? & ?).
Qed.

(** X8. When the group loop of a cycle completes and writing the state
    file goes through, the cycle completes and the state the next cycle
    loads is the in-memory state this cycle ended with; the next load
    reports [True] if this one did or if the cycle saved. *)
Theorem completed_cycle_hands_state_on mail groups m state existed m0 state'
    dirty' m1 :
  disk_writable m = true →
  load_state STATE_FILE m = (Ok (state, existed), m0) →
  for_each_group mail existed groups (state, false) m0
  = (Ok (state', dirty'), m1) →
  ∃ m' m'',
    check_cycle mail groups m = (Ok (), m') ∧
    load_state STATE_FILE m' = (Ok (state', existed || dirty'), m'').
Proof.
  intros Hw Hload Hloop.
  destruct (for_each_group_run _ _ _ _ _ _ _ _ Hloop)
    as (_ & _ & _ & Hd & Hw1 & _ & _ & _ & Hclean).
  destruct (for_each_group_shape _ _ _ _ _ _ _ _ _ Hloop) as (Hwf & _).
  pose proof Hload as Hload'. rewrite load_state_eq in Hload'.
  injection Hload' as Hfile <-. simpl in Hd, Hw1.
  assert (dict_wf state) as Hstate.
  { destruct (disk m !! STATE_FILE) as [[]|]; simplify_eq; try constructor.
    apply dict_comprehension_is_wf. }
  destruct groups as [|item rest].
  { cbn [for_each_group] in Hloop. injection Hloop as <- <- <-.
    exists m. eexists. split; [done|]. rewrite orb_false_r.
    rewrite load_state_eq, Hfile. done. }
  unfold check_cycle. rewrite (bind_ok _ _ _ _ _ Hload).
  rewrite (bind_ok _ _ _ _ _ Hloop). destruct dirty'.
  - eexists _, _. split; [apply save_state_eq|]. simpl.
    rewrite Hw1, Hw, orb_true_r, load_state_eq. simpl.
    rewrite lookup_insert_eq, saved_state_loads_back; [done|by apply Hwf].
  - destruct (Hclean eq_refl) as [-> _].
    eexists _, _. split; [done|].
    rewrite orb_false_r, load_state_eq, Hd, Hfile. done.
Qed.

End state_properties.

(** ** The polling loop *)

Section loop_properties.
Context {World : Type} `{!Platform World}.
Implicit Types (m : machine World) (state : seen_state).

(** An iteration is its cycle followed by the sleep of 24 hours, whether
    the cycle returned or raised. *)
Lemma main_iteration_run mail groups m r mc :
  check_cycle mail groups m = (r, mc) →
  main_iteration mail groups m
  = (Ok (), set_world (time_sleep (24 * 60 * 60) (world mc)) mc).
Proof.
  intros Hrun.
  unfold main_iteration, try_except, mbind, M_bind, platform, mret, M_ret.
  rewrite Hrun. by destruct r as [[]|e].
Qed.

(** X9. The polling loop never ends by an exception, and with at least one
    group configured every iteration loads the state afresh: after [n]
    iterations [load_state] has been called [n] times and [save_state] at
    most [n] times. *)
Theorem main_loop_reloads_every_cycle n mail groups m :
  groups ≠ [] →
  ∃ m' cs,
    main_loop n mail groups m = (Ok (), m') ∧
    calls m' = calls m ++ cs ∧
    List.length (filter (λ c, is_load_state c) cs) = n ∧
    (List.length (filter (λ c, is_save_state c) cs) ≤ n)%nat.
Proof.
  intros Hne. revert m. induction n as [|n IH]; intros m; cbn [main_loop].
  { exists m, []. by rewrite app_nil_r. }
  destruct (check_cycle mail groups m) as [r mc] eqn:Hrun.
  rewrite (bind_ok _ _ _ _ _ (main_iteration_run _ _ _ _ _ Hrun)).
  destruct (IH (set_world (time_sleep (24 * 60 * 60) (world mc)) mc))
    as (m' & cs & Hloop & Hcs & Hloads & Hsaves).
  exists m', (new_calls m mc ++ cs). split; [done|].
  split.
  { rewrite Hcs. simpl. rewrite (check_cycle_calls _ _ _ _ _ Hrun).
    by rewrite <-app_assoc. }
  destruct (check_cycle_run _ _ _ _ _ Hrun)
    as [(? & _)|(state & existed & m0 & r1 & m1 & cs1 & tail & _ & _ & _
                 & Hall & Hnew & Hend)]; [done|].
  destruct (group_calls_no_store existed cs1 Hall) as [Hnosave Hnoload].
  rewrite Hnew, !filter_app, !length_app.
  rewrite filter_cons_True by done.
  rewrite (filter_cons_False _ (CallLoadState _)) by (simpl; auto).
  rewrite !filter_app, Hnosave, Hnoload. simpl.
  destruct r1 as [[? []]|]; destruct_and!; subst tail; simpl; lia.
Qed.

(** X10. With no group configured the loop is inert: whatever the number of
    iterations, no function of the script is called and the disk is left
    as it is. *)
Theorem main_loop_without_groups_is_inert n mail m :
  ∃ m',
    main_loop n mail [] m = (Ok (), m') ∧
    calls m' = calls m ∧ disk m' = disk m.
Proof.
  revert m. induction n as [|n IH]; intros m; cbn [main_loop].
  { by exists m. }
  rewrite (bind_ok _ _ _ _ _
             (main_iteration_run mail [] m (Ok ()) m eq_refl)).
  destruct (IH (set_world (time_sleep (24 * 60 * 60) (world m)) m))
    as (m' & Hloop & Hcalls & Hdisk).
  by exists m'.
Qed.

End loop_properties.

(** ** The state store *)

Section store_properties.
Context {World : Type} `{!Platform World}.
Implicit Types (m : machine World) (state : seen_state).

(** X11. When the write goes through, [save_state] replaces the file by a
    document that lists the groups in the order of the state, each with a
    strictly ascending array (sorted, no duplicates) that holds exactly the
    identifiers of the group's set; no other file changes. *)
Theorem save_state_writes_canonical filepath state m :
  disk_writable m = true →
  ∃ data m',
    save_state filepath state m = (Ok (), m') ∧
    disk m' !! filepath = Some (Document data) ∧
    dict_keys data = dict_keys state ∧
    Forall2 (λ entry item, canonical entry.2 ∧ py_set entry.2 = item.2)
      data state ∧
    (∀ other, other ≠ filepath → disk m' !! other = disk m !! other).
Proof.
  intros Hw. eexists _, _. split; [apply save_state_eq|].
  rewrite Hw. simpl. split; [by rewrite lookup_insert_eq|].
  split; [|split].
  - unfold dict_keys. rewrite <-list_fmap_compose.
    by assert (fst ∘ prod_map id py_sorted
               = (fst : string * gset string → string)) as ->.
  - induction state as [|[k ids] state IH]; [constructor|].
    rewrite fmap_cons. constructor; [|done]. simpl.
    split; [apply py_sorted_canonical|apply py_set_sorted].
  - intros other Hne. by rewrite lookup_insert_ne.
Qed.

End store_properties.

(** ** The search *)

Section search_properties.
Context {World : Type} `{!Platform World}.
Implicit Types (m : machine World).

(** X13. On the same clock reading and feed, a wider window or a smaller
    seen set never loses a paper: whatever the narrower search returns is
    returned by the wider one. *)
Theorem wider_search_keeps_papers keywords seen_ids seen_ids'
    search_timedelta search_timedelta' m new_papers m1 new_papers' m1' :
  search_new_papers keywords seen_ids search_timedelta m
  = (Ok new_papers, m1) →
  search_new_papers keywords seen_ids' search_timedelta' m
  = (Ok new_papers', m1') →
  search_timedelta ≤ search_timedelta' →
  seen_ids' ⊆ seen_ids →
  ∀ paper, paper ∈ new_papers → paper ∈ new_papers'.
Proof.
  destruct (datetime_now (world m)) as [now w] eqn:Hnow.
  destruct (arxiv_Search_results (build_query keywords) 100 w)
    as [results w'] eqn:Hres.
  rewrite !(search_new_papers_eq _ _ _ _ _ _ _ _ Hnow Hres).
  intros [= <- _] [= <- _] Htd Hseen paper.
  rewrite !list_elem_of_filter, !Is_true_true, !is_new_spec.
  intros [[Hrecent Hunseen] Hin]. split; [|done]. split.
  - destruct Hrecent; [left|right]; lia.
  - set_solver.
Qed.

(** X14. The search returns the accepted records in the order in which the
    feed yields them, a repeated record as often as it is yielded: its
    result is the yielded sequence with the records that are too old or
    already seen removed.  It leaves the disk alone. *)
Theorem search_keeps_feed_order keywords seen_ids search_timedelta m now w
    results w' :
  datetime_now (world m) = (now, w) →
  arxiv_Search_results (build_query keywords) 100 w = (results, w') →
  ∃ new_papers m',
    search_new_papers keywords seen_ids search_timedelta m
    = (Ok new_papers, m') ∧
    new_papers
    = filter (λ r, (now - search_timedelta ≤ arxiv.published r
                    ∨ now - search_timedelta ≤ arxiv.updated r)
                   ∧ paper_id_of (arxiv.entry_id r) ∉ seen_ids)
        (arxiv.yielded results) ∧
    new_papers `sublist_of` arxiv.yielded results ∧
    disk m' = disk m.
Proof.
  intros Hnow Hres. eexists _, _.
  split; [by eapply search_new_papers_eq|].
  split; [|split; [apply sublist_filter|done]].
  apply list_filter_iff. intros r. by rewrite Is_true_true, is_new_spec.
Qed.

End search_properties.

(** ** Identifiers and keyword groups *)

Lemma split_without_separator sep s :
  Str.mem sep s = false → Str.split sep s = [s].
Proof.
  induction s as [|c s IH]; simpl; [done|].
  intros [Hc Hs]%orb_false_iff. apply bool_decide_eq_false in Hc.
  rewrite decide_False by done. by rewrite (IH Hs).
Qed.

Lemma split_last_field sep prefix field :
  Str.mem sep field = false →
  ∃ front fields,
    Str.split sep (prefix +:+ String sep field) = front :: fields ++ [field].
Proof.
  intros Hfield. induction prefix as [|c prefix (front & fields & IH)]; simpl.
  - rewrite decide_True by done. rewrite split_without_separator by done.
    by exists "", [].
  - rewrite IH. destruct (decide (c = sep)).
    + by exists "", (front :: fields).
    + by exists (String c front), fields.
Qed.

Lemma split_fields_without_separator sep s :
  Forall (λ field, Str.mem sep field = false) (Str.split sep s).
Proof.
  induction s as [|c s IH]; simpl; [by repeat constructor|].
  destruct (decide (c = sep)) as [->|Hc]; [by constructor|].
  destruct (Str.split sep s) as [|field fields].
  { repeat constructor. simpl. by rewrite bool_decide_eq_false_2. }
  apply Forall_cons in IH as [Hfield Hfields]. constructor; [|done].
  simpl. rewrite Hfield. by rewrite bool_decide_eq_false_2.
Qed.

Lemma mem_lstrip c s : Str.mem c (PyInt.lstrip s) = true → Str.mem c s = true.
Proof.
  induction s as [|a s IH]; simpl; [done|].
  destruct (PyInt.is_space a); [|done].
  intros Hin. rewrite (IH Hin). by rewrite orb_true_r.
Qed.

Lemma mem_rev_app c s1 s2 :
  Str.mem c (String.rev_app s1 s2) = Str.mem c s1 || Str.mem c s2.
Proof.
  revert s2. induction s1 as [|a s1 IH]; intros s2; simpl; [done|].
  rewrite IH. simpl. by destruct (bool_decide (c = a)), (Str.mem c s1).
Qed.

Lemma mem_strip c s : Str.mem c s = false → Str.mem c (PyInt.strip s) = false.
Proof.
  intros Hs. apply not_true_is_false. intros Hin. unfold PyInt.strip in Hin.
  unfold String.rev in Hin. rewrite mem_rev_app, orb_false_r in Hin.
  apply mem_lstrip in Hin. rewrite mem_rev_app, orb_false_r in Hin.
  apply mem_lstrip in Hin. congruence.
Qed.

Lemma dict_get_elem {V} g (v : V) (d : pydict V) :
  dict_get g d = Some v → (g, v) ∈ d.
Proof.
  induction d as [|[k v'] d IH]; simpl; [done|].
  destruct (decide (g = k)) as [->|Hne].
  - intros [= ->]. left.
  - intros Hget. right. by apply IH.
Qed.

Lemma dict_set_elem {V} k (v : V) (d : pydict V) entry :
  entry ∈ dict_set k v d → entry = (k, v) ∨ entry ∈ d.
Proof.
  induction d as [|[k' v'] d IH]; simpl.
  - intros ->%list_elem_of_singleton. by left.
  - destruct (decide (k = k')) as [->|Hne].
    + intros [->|Hin]%elem_of_cons; [by left|]. right. by right.
    + intros [->|Hin]%elem_of_cons; [right; left|].
      destruct (IH Hin) as [?|?]; [by left|]. right. by right.
Qed.

Lemma keywords_of_clean value :
  Forall (λ k, k ≠ "" ∧ Str.mem ","%char k = false) (Env.keywords_of value).
Proof.
  unfold Env.keywords_of. apply Forall_forall. intros k Hk.
  apply list_elem_of_omap in Hk as (field & Hfield & Hsome).
  destruct (bool_decide (PyInt.strip field = "")) eqn:Hempty; [done|].
  injection Hsome as <-. split; [by apply bool_decide_eq_false in Hempty|].
  apply mem_strip.
  pose proof (split_fields_without_separator ","%char value) as Hall.
  rewrite Forall_forall in Hall. by apply Hall.
Qed.

(** X15. The identifier depends only on what follows the last slash of the
    link: for an identifier without slash, any prefix followed by a slash
    and the identifier gives that identifier, and so does the identifier
    alone.  In particular a link that ends in a slash has the empty
    identifier. *)
Theorem paper_id_of_ignores_prefix prefix id :
  Str.mem Str.slash id = false →
  paper_id_of (prefix +:+ String Str.slash id) = id ∧ paper_id_of id = id.
Proof.
  intros Hid. unfold paper_id_of. split.
  - destruct (split_last_field Str.slash prefix id Hid)
      as (front & fields & ->).
    by rewrite app_comm_cons, last_snoc.
  - by rewrite split_without_separator.
Qed.

(** X16. Every group built from the environment has a distinct identifier
    of the form [group_] followed by the non-empty run of word characters
    that ends the name of its variable; its name and its keyword string are
    the name and the value of a variable of the environment; and its
    keyword list is not empty and holds only non-empty keywords without
    comma. *)
Theorem keyword_groups_well_formed environ :
  dict_wf (Env.KEYWORD_GROUPS environ) ∧
  ∀ group_id info,
    dict_get group_id (Env.KEYWORD_GROUPS environ) = Some info →
    (∃ suffix,
       group_id = "group_" +:+ suffix ∧ suffix ≠ "" ∧
       Env.all_chars Env.is_word suffix = true ∧
       Env.fullmatch (name info) = Some suffix) ∧
    (name info, keywords_string info) ∈ environ ∧
    keywords info = Env.keywords_of (keywords_string info) ∧
    keywords info ≠ [] ∧
    Forall (λ k, k ≠ "" ∧ Str.mem ","%char k = false) (keywords info).
Proof.
  unfold Env.KEYWORD_GROUPS.
  set (good := λ entry : string * group_info,
    (∃ suffix,
       entry.1 = "group_" +:+ suffix ∧ suffix ≠ "" ∧
       Env.all_chars Env.is_word suffix = true ∧
       Env.fullmatch (name entry.2) = Some suffix) ∧
    (name entry.2, keywords_string entry.2) ∈ environ ∧
    keywords entry.2 = Env.keywords_of (keywords_string entry.2) ∧
    keywords entry.2 ≠ [] ∧
    Forall (λ k, k ≠ "" ∧ Str.mem ","%char k = false) (keywords entry.2)).
  enough (∀ items acc,
            items ⊆ environ → dict_wf acc → Forall good acc →
            dict_wf (foldl Env.add_group acc items)
            ∧ Forall good (foldl Env.add_group acc items)) as Hgen.
  { destruct (Hgen environ []) as [Hwf Hgood]; [done|constructor|done|].
    split; [done|]. intros group_id info Hget.
    rewrite Forall_forall in Hgood.
    apply (Hgood (group_id, info)). by apply dict_get_elem. }
  induction items as [|[key value] items IH]; intros acc Hsub Hwf Hgood;
    simpl; [done|].
  apply IH; [set_solver| |]; unfold Env.add_group, Env.fullmatch;
    destruct (Env.skip_prefix "KEYWORD_GROUP_" key) as [suffix|] eqn:Hmatch;
    try done;
    destruct (negb (bool_decide (suffix = "")) &&
              Env.all_chars Env.is_word suffix) eqn:Hsuffix; try done;
    destruct (negb (bool_decide (PyInt.strip value = ""))); try done;
    destruct (Env.keywords_of value) as [|k ks] eqn:Hks; try done.
  - by apply dict_set_wf.
  - apply Forall_forall. intros entry Hentry.
    apply dict_set_elem in Hentry as [->|Hentry].
    2:{ rewrite Forall_forall in Hgood. by apply Hgood. }
    apply andb_true_iff in Hsuffix as [Hne Hword].
    apply negb_true_iff, bool_decide_eq_false in Hne.
    unfold good. simpl. split.
    { exists suffix. repeat split; try done.
      unfold Env.fullmatch. rewrite Hmatch.
      rewrite bool_decide_eq_false_2 by done. simpl. by rewrite Hword. }
    split; [set_solver|]. rewrite Hks. split; [done|]. split; [done|].
    rewrite <-Hks. apply keywords_of_clean.
Qed.

(** X17. No group is configured exactly when no variable of the
    environment has both a name that matches the pattern and a value that
    is not blank and holds a non-empty keyword. *)
Theorem no_keyword_groups_iff environ :
  Env.KEYWORD_GROUPS environ = [] ↔
  ∀ key value, (key, value) ∈ environ →
    Env.fullmatch key = None ∨ PyInt.strip value = ""
    ∨ Env.keywords_of value = [].
Proof.
  unfold Env.KEYWORD_GROUPS.
  assert (∀ (k : string) (v : group_info) d, dict_set k v d ≠ []) as Hset.
  { intros k v [|[k' v'] d]; simpl; [done|]. by destruct (decide (k = k')). }
  enough (∀ items acc,
            foldl Env.add_group acc items = [] ↔
            acc = [] ∧
            ∀ key value, (key, value) ∈ items →
              Env.fullmatch key = None ∨ PyInt.strip value = ""
              ∨ Env.keywords_of value = []) as Hgen.
  { rewrite (Hgen environ []). naive_solver. }
  induction items as [|[key value] items IH]; intros acc; simpl.
  { split; [intros ->; split; [done|]; by intros ?? ?%elem_of_nil|by intros []]. }
  rewrite IH. unfold Env.add_group.
  destruct (Env.fullmatch key) as [suffix|] eqn:Hmatch.
  2:{ split; intros [-> Hall]; (split; [done|]); intros k v Hin.
      - apply elem_of_cons in Hin as [[= -> ->]|Hin]; [by left|by apply Hall].
      - apply Hall. by right. }
  destruct (bool_decide (PyInt.strip value = "")) eqn:Hblank; simpl.
  { apply bool_decide_eq_true in Hblank.
    split; intros [-> Hall]; (split; [done|]); intros k v Hin.
    - apply elem_of_cons in Hin as [[= -> ->]|Hin]; [by right; left|].
      by apply Hall.
    - apply Hall. by right. }
  apply bool_decide_eq_false in Hblank.
  destruct (Env.keywords_of value) as [|k0 ks] eqn:Hks.
  { split; intros [-> Hall]; (split; [done|]); intros k v Hin.
    - apply elem_of_cons in Hin as [[= -> ->]|Hin]; [by right; right|].
      by apply Hall.
    - apply Hall. by right. }
  split.
  - intros [Hnil _]. by apply Hset in Hnil.
  - intros [_ Hall]. exfalso.
    destruct (Hall key value ltac:(left)) as [?|[?|?]]; congruence.
Qed.

(** ** Order of work and repeated notification *)

Section order_properties.
Context {World : Type} `{!Platform World}.
Implicit Types (m : machine World) (state : seen_state).




End order_properties.

(** ** Concrete runs of the further properties *)

(** X2 with the strict e-mail library and a sender of two lines. *)
Lemma send_email_raises_witness :
  @EmailMessage_raises _ Scenes.strict
    {| Subject := "subject";
       From := default "" (SENDER_EMAIL Scenes.broken_sender);
       To := default "" (RECEIVER_EMAIL Scenes.broken_sender);
       content := "body" |}
  = Some ValueError.
Proof.
  eapply (@send_email_raises_only_on_assembly _ Scenes.strict "subject" "body"
            (SENDER_EMAIL Scenes.broken_sender)
            (SENDER_PASSWORD Scenes.broken_sender)
            (RECEIVER_EMAIL Scenes.broken_sender)
            (SMTP_SERVER Scenes.broken_sender)
            (SMTP_PORT Scenes.broken_sender) Sample.first_run).
  vm_compute. reflexivity.
Defined.

(** X3 on an environment without sender, password and receiver. *)
Lemma missing_mail_settings_witness :
  send_email "subject" "body" (SENDER_EMAIL Scenes.bare_mail)
    (SENDER_PASSWORD Scenes.bare_mail) (RECEIVER_EMAIL Scenes.bare_mail)
    (SMTP_SERVER Scenes.bare_mail) (SMTP_PORT Scenes.bare_mail)
    Sample.first_run
  = (Ok false, add_call (CallSendEmail "subject" "body") Sample.first_run).
Proof.
  apply (missing_mail_settings_fail_closed Scenes.bare_environ).
  - reflexivity.
  - left. reflexivity.
Defined.

(** X4 on the first run without mail settings: a paper is found, nothing
    is stored. *)
Lemma incomplete_mail_witness :
  ∃ m',
    check_cycle Scenes.bare_mail [Sample.ml] Sample.first_run = (Ok (), m') ∧
    disk m' = disk Sample.first_run ∧
    filter (λ c, is_save_state c) (new_calls Sample.first_run m') = [].
Proof.
  apply (incomplete_mail_never_advances Scenes.bare_mail [Sample.ml]
           Sample.first_run).
  left. reflexivity.
Defined.

(** X5 on the first run, which writes the state file. *)
Lemma cycle_touches_only_state_file_witness :
  (∀ filepath, filepath ≠ STATE_FILE →
     disk (check_cycle Sample.mail [Sample.ml] Sample.first_run).2
       !! filepath
     = disk Sample.first_run !! filepath) ∧
  disk_writable (check_cycle Sample.mail [Sample.ml] Sample.first_run).2
  = disk_writable Sample.first_run ∧
  (disk_writable Sample.first_run = false →
   disk (check_cycle Sample.mail [Sample.ml] Sample.first_run).2
   = disk Sample.first_run).
Proof.
  apply (cycle_touches_only_state_file Sample.mail [Sample.ml]
           Sample.first_run
           (check_cycle Sample.mail [Sample.ml] Sample.first_run).1).
  vm_compute. reflexivity.
Defined.

(** X6 with the strict e-mail library: the digest cannot be assembled, the
    cycle is abandoned and nothing is saved. *)
Lemma aborted_cycle_witness :
  (∃ msg, @EmailMessage_raises _ Scenes.strict msg = Some ValueError) ∧
  disk (@check_cycle _ Scenes.strict Scenes.broken_sender [Sample.ml]
          Sample.first_run).2
  = disk Sample.first_run ∧
  filter (λ c, is_save_state c)
    (new_calls Sample.first_run
       (@check_cycle _ Scenes.strict Scenes.broken_sender [Sample.ml]
          Sample.first_run).2)
  = [].
Proof.
  apply (@aborted_cycle_saves_nothing _ Scenes.strict Scenes.broken_sender
           [Sample.ml] Sample.first_run ValueError).
  vm_compute. reflexivity.
Defined.

(** X7 on the later run with a group of an earlier configuration. *)
Lemma unconfigured_groups_witness :
  dict_get "group_old"
    (dict_set "group_ml"
       {[ "2301.12345v1"; "2404.00001v1"; "2301.12345v2" ]}
       Scenes.seen_with_old_group)
  = dict_get "group_old" Scenes.seen_with_old_group.
Proof.
  pose proof (λ m' Hloop,
                proj1 (unconfigured_groups_are_carried Sample.mail true
                         [Sample.ml] Scenes.seen_with_old_group false
                         Sample.later_run
                         (dict_set "group_ml"
                            {[ "2301.12345v1"; "2404.00001v1";
                               "2301.12345v2" ]}
                            Scenes.seen_with_old_group)
                         true m' Hloop) "group_old") as Hcarried.
  eapply Hcarried.
  - vm_compute. reflexivity.
  - vm_compute. intros Hin. inversion Hin as [|? ? ? Hnil]. inversion Hnil.
Defined.

(** X8 on the later run: the next load returns the three identifiers. *)
Lemma completed_cycle_witness :
  ∃ m' m'',
    check_cycle Sample.mail [Sample.ml] Sample.later_run = (Ok (), m') ∧
    load_state STATE_FILE m' = (Ok (Sample.seen_afterwards, true || true), m'').
Proof.
  eapply (completed_cycle_hands_state_on Sample.mail [Sample.ml]
            Sample.later_run Sample.seen_on_file true).
  - reflexivity.
  - vm_compute. reflexivity.
  - vm_compute. reflexivity.
Defined.

(** X9 on two iterations from the first run. *)
Lemma main_loop_reloads_witness :
  ∃ m' cs,
    main_loop 2 Sample.mail [Sample.ml] Sample.first_run = (Ok (), m') ∧
    calls m' = calls Sample.first_run ++ cs ∧
    List.length (filter (λ c, is_load_state c) cs) = 2%nat ∧
    (List.length (filter (λ c, is_save_state c) cs) ≤ 2)%nat.
Proof.
  apply (main_loop_reloads_every_cycle 2 Sample.mail [Sample.ml]
           Sample.first_run).
  discriminate.
Defined.

(** X11 on the later run *)
Lemma save_state_writes_canonical_witness :
  ∃ data m',
    save_state STATE_FILE Sample.seen_afterwards Sample.later_run
    = (Ok (), m') ∧
    disk m' !! STATE_FILE = Some (Document data) ∧
    dict_keys data = dict_keys Sample.seen_afterwards ∧
    Forall2 (λ entry item, canonical entry.2 ∧ py_set entry.2 = item.2)
      data Sample.seen_afterwards ∧
    (∀ other, other ≠ STATE_FILE →
       disk m' !! other = disk Sample.later_run !! other).
Proof.
  apply (save_state_writes_canonical STATE_FILE Sample.seen_afterwards
           Sample.later_run).
  reflexivity.
Defined.

(** X13 on the later run: what the search of 24 hours finds, the search of
    7 days finds. *)
Lemma wider_search_witness :
  Sample.paper_v2 ∈ [Sample.paper_v2] ∧
  Sample.paper_v2 ∈ [Sample.paper_v2; Sample.paper_v1].
Proof.
  assert (Sample.paper_v2 ∈ [Sample.paper_v2]) as Hfound by left.
  split; [exact Hfound|].
  pose proof (λ m1 m1' Hnarrow Hwide Hseen,
                wider_search_keeps_papers ["diffusion"; "sampling"]
                  {[ "2404.00001v1" ]} ∅ (timedelta 0 24) (timedelta 30 0)
                  Sample.later_run [Sample.paper_v2] m1
                  [Sample.paper_v2; Sample.paper_v1] m1' Hnarrow Hwide
                  ltac:(vm_compute; discriminate) Hseen Sample.paper_v2
                  Hfound) as Hwider.
  eapply Hwider.
  - vm_compute. reflexivity.
  - vm_compute. reflexivity.
  - apply empty_subseteq.
Defined.

(** X14 on the later run *)
Lemma search_keeps_feed_order_witness :
  ∃ new_papers m',
    search_new_papers ["diffusion"; "sampling"]
      (seen_of Sample.seen_on_file "group_ml") (timedelta 30 0)
      Sample.later_run = (Ok new_papers, m') ∧
    new_papers
    = filter (λ r, (Sample.noon - timedelta 30 0 ≤ arxiv.published r
                    ∨ Sample.noon - timedelta 30 0 ≤ arxiv.updated r)
                   ∧ paper_id_of (arxiv.entry_id r)
                     ∉ seen_of Sample.seen_on_file "group_ml")
        (arxiv.yielded
           (arxiv.Yield Sample.paper_v2
              (arxiv.Yield Sample.paper_v1 arxiv.Exhausted))) ∧
    new_papers `sublist_of`
      arxiv.yielded
        (arxiv.Yield Sample.paper_v2
           (arxiv.Yield Sample.paper_v1 arxiv.Exhausted)) ∧
    disk m' = disk Sample.later_run.
Proof.
  apply (search_keeps_feed_order ["diffusion"; "sampling"]
           (seen_of Sample.seen_on_file "group_ml") (timedelta 30 0)
           Sample.later_run Sample.noon (world Sample.later_run)
           (arxiv.Yield Sample.paper_v2
              (arxiv.Yield Sample.paper_v1 arxiv.Exhausted))
           {| Sample.clock := Sample.noon; Sample.feeds := [];
              Sample.sessions := [Delivered] |}).
  - reflexivity.
  - reflexivity.
Defined.

(** X15 on the two links of one version *)
Lemma paper_id_of_ignores_prefix_witness :
  paper_id_of "https://arxiv.org/pdf/2301.12345v1" = "2301.12345v1" ∧
  paper_id_of "2301.12345v1" = "2301.12345v1".
Proof.
  apply (paper_id_of_ignores_prefix "https://arxiv.org/pdf" "2301.12345v1").
  reflexivity.
Defined.

(** X16 on the bare environment: one group, two keywords. *)
Lemma keyword_groups_witness :
  keywords
    {| name := "Keyword_Group_ml"; keywords := ["diffusion"; "sampling"];
       keywords_string := " diffusion , sampling,, " |}
  = Env.keywords_of " diffusion , sampling,, ".
Proof.
  destruct (proj2 (keyword_groups_well_formed Scenes.bare_environ)
              "group_ml"
              {| name := "Keyword_Group_ml";
                 keywords := ["diffusion"; "sampling"];
                 keywords_string := " diffusion , sampling,, " |})
    as (_ & _ & Hkeywords & _).
  - vm_compute. reflexivity.
  - exact Hkeywords.
Defined.


(** ** Saving and delivery *)

Section delivery_properties.
Context {World : Type} `{!Platform World}.
Implicit Types (m : machine World) (state : seen_state).




(** X19. A cycle that is abandoned by an exception, or whose state file
    cannot be opened for writing, is forgotten: the disk is as before and
    the next [load_state] returns the state and the flag this cycle
    loaded, whatever the cycle notified, so the following cycle starts
    from the same seen sets. *)
Theorem unsaved_cycle_is_forgotten mail groups m r m' :
  check_cycle mail groups m = (r, m') →
  disk_writable m = false ∨ (∃ e, r = Raise e) →
  disk m' = disk m ∧
  ∃ loaded m0 m0',
    load_state STATE_FILE m = (Ok loaded, m0) ∧
    load_state STATE_FILE m' = (Ok loaded, m0').
Proof.
  intros Hrun Hwhy.
  assert (disk m' = disk m) as Hdisk.
  { destruct (check_cycle_run _ _ _ _ _ Hrun)
      as [(-> & -> & ->)|(state & existed & m0 & r1 & m1 & cs & tail & _
                          & Hload & Hloop & _ & _ & Hend)]; [done|].
    rewrite load_state_eq in Hload. injection Hload as _ <-.
    destruct (for_each_group_run _ _ _ _ _ _ _ _ Hloop)
      as (_ & _ & _ & Hd & Hw & _). simpl in Hd, Hw.
    destruct r1 as [[state' []]|e].
    - destruct Hend as (-> & Hsave & _). rewrite save_state_eq in Hsave.
      injection Hsave as <-. destruct Hwhy as [Hunwritable|[e [=]]].
      by rewrite Hw, Hunwritable.
    - by destruct Hend as (_ & -> & _).
    - by destruct Hend as (_ & -> & _). }
  split; [done|]. eexists _, _, _.
  split; [apply load_state_eq|]. by rewrite load_state_eq, Hdisk.
Qed.

End delivery_properties.

(** ** Concrete runs of saving and delivery *)


(** X19 on the first cycle of the unwritable run and on the cycle that the
    strict e-mail library aborts. *)
Lemma unsaved_cycle_witness :
  disk (check_cycle Sample.mail [Sample.ml] Scenes.unwritable_run).2
  = disk Scenes.unwritable_run ∧
  disk (@check_cycle _ Scenes.strict Scenes.broken_sender [Sample.ml]
          Sample.first_run).2
  = disk Sample.first_run.
Proof.
  split.
  - apply (unsaved_cycle_is_forgotten Sample.mail [Sample.ml]
             Scenes.unwritable_run
             (check_cycle Sample.mail [Sample.ml] Scenes.unwritable_run).1).
    + vm_compute. reflexivity.
    + left. reflexivity.
  - apply (@unsaved_cycle_is_forgotten _ Scenes.strict Scenes.broken_sender
             [Sample.ml] Sample.first_run
             (@check_cycle _ Scenes.strict Scenes.broken_sender [Sample.ml]
                Sample.first_run).1).
    + vm_compute. reflexivity.
    + right. exists ValueError. vm_compute. reflexivity.
Defined.
